(** * node-daraja: the authenticated-request pipeline of the [Safaricom] client

    A shallow embedding of the class [Safaricom] (the module the test
    suite imports as [./index.js]): the constructor, the token cache
    [_getAuthToken], the dispatcher [_makeRequest], the error normalizer
    [_handleError], the timestamp and password derivation, and the
    credential-guarded operations.  The mixin [src/apis/stk.js] repeats
    [stkPush] and [stkQuery] word for word over the same helpers.

    Conventions of the embedding.
    - A JavaScript string is its sequence of UTF-8 bytes ([string]); string
      concatenation is [++].
    - A JavaScript number is an integer [Z].  Every number the pipeline
      computes with (epoch milliseconds, seconds of validity, HTTP status,
      calendar fields) is an integer far below 2^53, where the arithmetic
      of doubles is exact and [String(n)] is the decimal numeral.
    - Values that come from outside in an arbitrary shape (response bodies,
      the [params] argument) are [JS.value]s; an abrupt completion (a
      [throw]) is explicit in the type [JS.completion].
    - The network and the clock are a [world] of oracles indexed by the
      number of interactions made so far; every call of [axios.get] and
      [axios.post] is emitted as an [event]. *)

From Stdlib Require Import String Ascii ZArith NArith List Bool Lia DecimalString.
Import ListNotations.

#[local] Set Warnings "-register-all".

Local Open Scope string_scope.
Local Open Scope Z_scope.

(** ** JavaScript values *)

Module JS.

(** The values of JSON, and [undefined].  The fields of an object are kept
    in insertion order, under distinct names. *)
Inductive value : Type :=
| JUndefined
| JNull
| JBool (b : bool)
| JNum (n : Z)
| JStr (s : string)
| JArr (items : list value)
| JObj (fields : list (string * value)).

(** What a [throw] carries.  [Error] is [new Error(message)]; the two
    [TypeError]s are the ones the engine raises for [x.p] with [x] null or
    undefined, and for [x.m(...)] when [x.m] is not callable. *)
Inductive thrown : Type :=
| Error (message : string)
| TypeError_nullish_read (property : string)
| TypeError_not_a_function (member : string).

Inductive completion (A : Type) : Type :=
| Normal (a : A)
| Abrupt (e : thrown).
Arguments Normal {A} a.
Arguments Abrupt {A} e.

Definition bind_completion {A B} (c : completion A) (k : A -> completion B)
  : completion B :=
  match c with
  | Normal a => k a
  | Abrupt e => Abrupt e
  end.

(** ToBoolean. *)
Definition truthy (v : value) : bool :=
  match v with
  | JUndefined | JNull => false
  | JBool b => b
  | JNum n => negb (n =? 0)
  | JStr s => negb (s =? "")%string
  | JArr _ | JObj _ => true
  end.

Definition truthy_string (s : string) : bool := negb (s =? "")%string.

(** An optional string field ([undefined] when absent). *)
Definition truthy_field (f : option string) : bool :=
  match f with
  | Some s => truthy_string s
  | None => false
  end.

(** [a || b] where [b] is evaluated only when [a] is falsy. *)
Definition or_else (a : value) (b : completion value) : completion value :=
  if truthy a then Normal a else b.

Definition decimal (n : Z) : string := NilZero.string_of_int (Z.to_int n).

Fixpoint join (sep : string) (parts : list string) : string :=
  match parts with
  | [] => ""
  | [p] => p
  | p :: rest => p ++ sep ++ join sep rest
  end.

(** ToString, as applied by [String(v)] and by template literals. *)
Fixpoint to_String (v : value) : string :=
  match v with
  | JUndefined => "undefined"
  | JNull => "null"
  | JBool true => "true"
  | JBool false => "false"
  | JNum n => decimal n
  | JStr s => s
  | JArr items =>
      join ","
        ((fix each (l : list value) : list string :=
            match l with
            | [] => []
            | JUndefined :: rest => "" :: each rest
            | JNull :: rest => "" :: each rest
            | x :: rest => to_String x :: each rest
            end) items)
  | JObj _ => "[object Object]"
  end.

Fixpoint lookup (k : string) (fields : list (string * value)) : option value :=
  match fields with
  | [] => None
  | (k', v) :: rest => if (k =? k')%string then Some v else lookup k rest
  end.

(** [v.k] for the property names this program reads ([errorCode], [fault],
    [code], [ResultCode], [errorMessage], [faultstring], [ResultDesc] and
    the fields of [params]): none of them is inherited from a prototype, so
    the read yields the own property or [undefined], and throws on
    [null]/[undefined]. *)
Definition get (v : value) (k : string) : completion value :=
  match v with
  | JUndefined | JNull => Abrupt (TypeError_nullish_read k)
  | JObj fields =>
      match lookup k fields with
      | Some x => Normal x
      | None => Normal JUndefined
      end
  | _ => Normal JUndefined
  end.

(** [String.prototype.includes]: does [needle] occur in [hay]? *)
Fixpoint string_includes (hay needle : string) : bool :=
  if String.prefix needle hay then true
  else match hay with
       | EmptyString => false
       | String _ rest => string_includes rest needle
       end.

Definition is_string (needle : string) (v : value) : bool :=
  match v with
  | JStr s => (s =? needle)%string
  | _ => false
  end.

(** [v.includes(needle)]: the method of strings, the method of arrays
    (membership of an element), and a [TypeError] for every other value. *)
Definition includes (v : value) (needle : string) : completion bool :=
  match v with
  | JStr s => Normal (string_includes s needle)
  | JArr items => Normal (existsb (is_string needle) items)
  | JUndefined | JNull => Abrupt (TypeError_nullish_read "includes")
  | _ => Abrupt (TypeError_not_a_function "includes")
  end.

(** *** JSON.stringify *)

Definition dquote : ascii := ascii_of_N 34.

Definition hex_digit (n : N) : ascii :=
  if (n <? 10)%N then ascii_of_N (48 + n) else ascii_of_N (87 + n).

Definition quote_char (c : ascii) : string :=
  let n := N_of_ascii c in
  if (n =? 34)%N then String "\" (String dquote "")
  else if (n =? 92)%N then "\\"
  else if (n =? 8)%N then "\b"
  else if (n =? 9)%N then "\t"
  else if (n =? 10)%N then "\n"
  else if (n =? 12)%N then "\f"
  else if (n =? 13)%N then "\r"
  else if (n <? 32)%N then
    "\u00" ++ String (hex_digit (n / 16)) (String (hex_digit (n mod 16)) "")
  else String c "".

Fixpoint quote_body (s : string) : string :=
  match s with
  | EmptyString => ""
  | String c rest => quote_char c ++ quote_body rest
  end.

Definition quote (s : string) : string :=
  String dquote (quote_body s ++ String dquote "").

Fixpoint stringify_text (v : value) : string :=
  match v with
  | JUndefined | JNull => "null"
  | JBool true => "true"
  | JBool false => "false"
  | JNum n => decimal n
  | JStr s => quote s
  | JArr items =>
      "[" ++ join ","
        ((fix each (l : list value) : list string :=
            match l with
            | [] => []
            | x :: rest => stringify_text x :: each rest
            end) items) ++ "]"
  | JObj fields =>
      "{" ++ join ","
        ((fix each (l : list (string * value)) : list string :=
            match l with
            | [] => []
            | (_, JUndefined) :: rest => each rest
            | (k, x) :: rest => (quote k ++ ":" ++ stringify_text x) :: each rest
            end) fields) ++ "}"
  end.

(** [JSON.stringify(v)]: [undefined] for [undefined], a string otherwise. *)
Definition JSON_stringify (v : value) : value :=
  match v with
  | JUndefined => JUndefined
  | _ => JStr (stringify_text v)
  end.

End JS.

(** ** [Buffer.from(s).toString("base64")] *)

Module Base64.

Definition alphabet : string :=
  "ABCDEFGHIJKLMNOPQRSTUVWXYZabcdefghijklmnopqrstuvwxyz0123456789+/".

Definition sextet (n : N) : ascii :=
  match String.get (N.to_nat n) alphabet with
  | Some c => c
  | None => "="%char
  end.

(** Three octets become four sextets; a final group of one or two octets is
    padded with [=]. *)
Fixpoint encode (octets : list N) : string :=
  match octets with
  | [] => ""
  | [a] =>
      String (sextet (N.shiftr a 2))
        (String (sextet (N.shiftl (N.land a 3) 4)) "==")
  | [a; b] =>
      String (sextet (N.shiftr a 2))
        (String (sextet (N.lor (N.shiftl (N.land a 3) 4) (N.shiftr b 4)))
           (String (sextet (N.shiftl (N.land b 15) 2)) "="))
  | a :: b :: c :: rest =>
      String (sextet (N.shiftr a 2))
        (String (sextet (N.lor (N.shiftl (N.land a 3) 4) (N.shiftr b 4)))
           (String (sextet (N.lor (N.shiftl (N.land b 15) 2) (N.shiftr c 6)))
              (String (sextet (N.land c 63)) (encode rest))))
  end.

Definition Buffer_from (s : string) : list N :=
  map N_of_ascii (list_ascii_of_string s).

Definition base64 (s : string) : string := encode (Buffer_from s).

End Base64.

(** ** The client *)

Module Safaricom.
Import JS.

(** *** Configuration and construction *)

Definition BASE_URLS : list (string * string) :=
  [ ("sandbox", "https://sandbox.safaricom.co.ke");
    ("production", "https://api.safaricom.co.ke") ].

(** [BASE_URLS] is an object literal: besides its two own properties, a
    read [BASE_URLS[k]] finds the members every object inherits from
    [Object.prototype]. *)
Definition Object_prototype : list string :=
  [ "constructor"; "hasOwnProperty"; "isPrototypeOf"; "propertyIsEnumerable";
    "toLocaleString"; "toString"; "valueOf"; "__proto__";
    "__defineGetter__"; "__defineSetter__";
    "__lookupGetter__"; "__lookupSetter__" ].

(** The value of [BASE_URLS[k]]: [undefined], one of the two URLs, or an
    inherited member (a function, or the prototype object itself). *)
Inductive slot : Type :=
| Absent
| Own (href : string)
| Inherited (name : string).

Fixpoint assoc (k : string) (table : list (string * string)) : option string :=
  match table with
  | [] => None
  | (k', v) :: rest => if (k =? k')%string then Some v else assoc k rest
  end.

Definition member (k : string) (names : list string) : bool :=
  existsb (String.eqb k) names.

Definition BASE_URLS_get (k : string) : slot :=
  match assoc k BASE_URLS with
  | Some href => Own href
  | None => if member k Object_prototype then Inherited k else Absent
  end.

Definition slot_truthy (s : slot) : bool :=
  match s with
  | Absent => false
  | Own href => truthy_string href
  | Inherited _ => true
  end.

(** The [options] argument of the constructor; [None] is an omitted
    field. *)
Module Options.
Record t : Type := {
  consumerKey : option string;
  consumerSecret : option string;
  shortCode : option string;
  passkey : option string;
  initiatorName : option string;
  securityCredential : option string;
  environment : option string
}.
End Options.

(** The instance ([this]).  [token] and [tokenExpiresAt] are the two mutable
    fields; [None] is [null]. *)
Record client : Type := {
  consumerKey : string;
  consumerSecret : string;
  shortCode : string;
  passkey : option string;
  initiatorName : option string;
  securityCredential : option string;
  environment : string;
  baseUrl : slot;
  token : option string;
  tokenExpiresAt : option Z
}.

(** [f || fallback] on an optional string field. *)
Definition field_or (f : option string) (fallback : string) : string :=
  match f with
  | Some s => if truthy_string s then s else fallback
  | None => fallback
  end.

Definition constructor (options : Options.t) : completion client :=
  match Options.consumerKey options, Options.consumerSecret options,
        Options.shortCode options with
  | Some key, Some secret, Some code =>
      if negb (truthy_string key) || negb (truthy_string secret)
         || negb (truthy_string code)
      then Abrupt (Error "Consumer key, consumer secret, and shortcode are required.")
      else
        let env := field_or (Options.environment options) "sandbox" in
        let url := BASE_URLS_get env in
        if negb (slot_truthy url)
        then Abrupt (Error ("Invalid environment specified: " ++ env
                            ++ ". Use 'sandbox' or 'production'."))
        else Normal {| consumerKey := key;
                       consumerSecret := secret;
                       shortCode := code;
                       passkey := Options.passkey options;
                       initiatorName := Options.initiatorName options;
                       securityCredential := Options.securityCredential options;
                       environment := env;
                       baseUrl := url;
                       token := None;
                       tokenExpiresAt := None |}
  | _, _, _ =>
      Abrupt (Error "Consumer key, consumer secret, and shortcode are required.")
  end.

Definition set_token (c : client) (t : string) : client :=
  {| consumerKey := consumerKey c; consumerSecret := consumerSecret c;
     shortCode := shortCode c; passkey := passkey c;
     initiatorName := initiatorName c;
     securityCredential := securityCredential c;
     environment := environment c; baseUrl := baseUrl c;
     token := Some t; tokenExpiresAt := tokenExpiresAt c |}.

Definition set_tokenExpiresAt (c : client) (at_ : Z) : client :=
  {| consumerKey := consumerKey c; consumerSecret := consumerSecret c;
     shortCode := shortCode c; passkey := passkey c;
     initiatorName := initiatorName c;
     securityCredential := securityCredential c;
     environment := environment c; baseUrl := baseUrl c;
     token := token c; tokenExpiresAt := Some at_ |}.

(** *** The outside world *)

(** What the getters of [new Date()] return, in the local time zone. *)
Record calendar : Type := {
  getFullYear : Z;
  getMonth : Z;
  getDate : Z;
  getHours : Z;
  getMinutes : Z;
  getSeconds : Z
}.

Record http_response : Type := { status : Z; data : value }.

(** The value axios rejects with: [error.response] (when the server
    answered outside 2xx), whether [error.request] is set, and
    [error.message]. *)
Record failure : Type := {
  response : option http_response;
  request : bool;
  message : string
}.

(** The [data] of a 2xx answer of the token endpoint, in the shape the
    provider documents: [{access_token, expires_in}], a string and a number
    of seconds. *)
Record token_data : Type := { access_token : string; expires_in : Z }.

Inductive settled (A : Type) : Type :=
| Resolved (a : A)
| Rejected (error : failure).
Arguments Resolved {A} a.
Arguments Rejected {A} error.

(** The request URL [`${this.baseUrl}${path}`], kept as its two parts. *)
Record target : Type := { base : slot; path : string }.

(** A call of [axios.get] or [axios.post], with the [Authorization] header
    it carries (the [Content-Type] of a post is constant). *)
Inductive event : Type :=
| GET (url : target) (authorization : string)
| POST (url : target) (body : value) (authorization : string).

(** The oracles are indexed by the number of interactions made before. *)
Record world : Type := {
  clock : nat -> Z;
  local_time : nat -> calendar;
  get_reply : nat -> target -> string -> settled token_data;
  post_reply : nat -> target -> value -> string -> settled value
}.

Record heap : Type := { self : client; steps : nat }.

(** *** The monad of the asynchronous methods: state, exceptions and the
    calls emitted *)

Definition M (A : Type) : Type :=
  world -> heap -> completion A * heap * list event.

Definition ret {A} (a : A) : M A := fun _ h => (Normal a, h, []).

Definition throw {A} (e : thrown) : M A := fun _ h => (Abrupt e, h, []).

Definition bind {A B} (m : M A) (k : A -> M B) : M B :=
  fun w h =>
    match m w h with
    | (Normal a, h1, out1) =>
        match k a w h1 with
        | (r, h2, out2) => (r, h2, (out1 ++ out2)%list)
        end
    | (Abrupt e, h1, out1) => (Abrupt e, h1, out1)
    end.

Definition lift {A} (c : completion A) : M A :=
  match c with
  | Normal a => ret a
  | Abrupt e => throw e
  end.

Declare Scope js_scope.
Delimit Scope js_scope with js.
Notation "x <- m ;; k" := (bind m (fun x => k))
  (at level 61, m at next level, right associativity) : js_scope.
Notation "m ;;; k" := (bind m (fun _ => k))
  (at level 61, right associativity) : js_scope.
Notation "'let?' x := c 'in' k" := (bind_completion c (fun x => k))
  (at level 61, x name, c at next level, right associativity) : js_scope.
Local Open Scope js_scope.

Definition step (h : heap) : heap := {| self := self h; steps := S (steps h) |}.

Definition read_this : M client := fun _ h => (Normal (self h), h, []).

Definition write_this (c : client) : M unit :=
  fun _ h => (Normal tt, {| self := c; steps := steps h |}, []).

Definition Date_now : M Z :=
  fun w h => (Normal (clock w (steps h)), step h, []).

Definition new_Date : M calendar :=
  fun w h => (Normal (local_time w (steps h)), step h, []).

Definition axios_get (url : target) (authorization : string)
  : M (settled token_data) :=
  fun w h => (Normal (get_reply w (steps h) url authorization), step h,
              [GET url authorization]).

Definition axios_post (url : target) (body : value) (authorization : string)
  : M (settled value) :=
  fun w h => (Normal (post_reply w (steps h) url body authorization), step h,
              [POST url body authorization]).

Definition run {A} (m : M A) (w : world) (h : heap)
  : completion A * heap * list event := m w h.

(** *** [_getTimestamp] *)

Fixpoint zeros (n : nat) : string :=
  match n with
  | O => ""
  | S k => String "0" (zeros k)
  end.

(** [s.padStart(width, "0")] *)
Definition padStart (width : nat) (s : string) : string :=
  zeros (width - String.length s) ++ s.

Definition timestamp_of (date : calendar) : string :=
  let year := decimal (getFullYear date) in
  let month := padStart 2 (decimal (getMonth date + 1)) in
  let day := padStart 2 (decimal (getDate date)) in
  let hours := padStart 2 (decimal (getHours date)) in
  let minutes := padStart 2 (decimal (getMinutes date)) in
  let seconds := padStart 2 (decimal (getSeconds date)) in
  year ++ month ++ day ++ hours ++ minutes ++ seconds.

Definition _getTimestamp : M string :=
  date <- new_Date ;;
  ret (timestamp_of date).

(** *** [_handleError] *)

(** [data.errorCode || (data.fault ? data.fault.code : null) || data.ResultCode] *)
Definition errorCode_of (data : value) : completion value :=
  let? top := get data "errorCode" in
  or_else top
    (let? fault := get data "fault" in
     let? nested := (if truthy fault then get fault "code" else Normal JNull) in
     or_else nested (get data "ResultCode")).

(** [data.errorMessage || (data.fault ? data.fault.faultstring : null)
     || data.ResultDesc || JSON.stringify(data)] *)
Definition errorMessage_of (data : value) : completion value :=
  let? top := get data "errorMessage" in
  or_else top
    (let? fault := get data "fault" in
     let? nested := (if truthy fault then get fault "faultstring" else Normal JNull) in
     or_else nested
       (let? desc := get data "ResultDesc" in
        or_else desc (Normal (JSON_stringify data)))).

(** The clauses of [switch (String(errorCode))], one per statement list, in
    the order of the source. *)
Inductive clause : Type :=
| AuthenticationFailed
| InvalidGrantType
| InvalidAuthenticationHeader
| InvalidRequestPayload
| InvalidAccessToken
| InsufficientFunds
| TransactionInProgress
| TransactionExpired
| PushInternalError
| RequestCancelledByUser
| STKPushTimeout
| InvalidPIN
| DuplicateRequest
| InternalFailure
| InitiatorCredentialCheckFailure
| UnresolvedInitiator
| PermissionFailure
| SystemBusy
| InvalidInitiatorInformation
| InvalidInitiatorInformationB2C
| MerchantKYCFail
| MissingNominatedNumber
| USSDNetworkError
| C2BRegisterUrl
| BillManagerConflict
| Default.

(** The [case] labels in source order; the label ["2001"] occurs three
    times, and ["4201"] falls through to the clause of ["4203"]. *)
Definition cases : list (string * clause) :=
  [ ("400.008.01", AuthenticationFailed);
    ("400.008.02", InvalidGrantType);
    ("404.001.04", InvalidAuthenticationHeader);
    ("400.002.05", InvalidRequestPayload);
    ("400.003.01", InvalidAccessToken);
    ("1", InsufficientFunds);
    ("1001", TransactionInProgress);
    ("1019", TransactionExpired);
    ("1025", PushInternalError);
    ("1032", RequestCancelledByUser);
    ("1037", STKPushTimeout);
    ("2001", InvalidPIN);
    ("15", DuplicateRequest);
    ("17", InternalFailure);
    ("18", InitiatorCredentialCheckFailure);
    ("20", UnresolvedInitiator);
    ("21", PermissionFailure);
    ("26", SystemBusy);
    ("2001", InvalidInitiatorInformation);
    ("2001", InvalidInitiatorInformationB2C);
    ("4102", MerchantKYCFail);
    ("4104", MissingNominatedNumber);
    ("4201", USSDNetworkError);
    ("4203", USSDNetworkError);
    ("500.003.1001", C2BRegisterUrl);
    ("409", BillManagerConflict) ].

(** A [switch] enters the clause of the first label strictly equal to the
    discriminant, and [default] when there is none. *)
Fixpoint select (key : string) (table : list (string * clause)) : clause :=
  match table with
  | [] => Default
  | (label, c) :: rest => if (key =? label)%string then c else select key rest
  end.

(** An [if (m.includes(p1)) ... else if (m.includes(p2)) ... else ...]
    chain. *)
Fixpoint first_phrase (errorMessage : value) (chain : list (string * string))
    (otherwise : string) : completion string :=
  match chain with
  | [] => Normal otherwise
  | (phrase, text) :: rest =>
      let? found := includes errorMessage phrase in
      if found then Normal text else first_phrase errorMessage rest otherwise
  end.

Definition Invalid_PIN : string :=
  "Invalid PIN. The customer entered the wrong M-Pesa PIN. Please ask them to try again with the correct PIN.".

Definition Invalid_Initiator_Information : string :=
  "Invalid Initiator Information. The 'initiatorName' or 'securityCredential' you provided is incorrect. Please check your credentials on the Safaricom Developer Portal.".

Definition C2B_phrases : list (string * string) :=
  [ ("already registered",
     "URLs are already registered for this ShortCode. In the production environment, you can only register URLs once. To change them, please contact Safaricom API support.");
    ("Duplicate notification info",
     "Duplicate URLs. You may have registered these URLs on another platform (like the old aggregator platform). Please contact Safaricom support to have the old URLs deleted before registering here.") ].

Definition BillManager_phrases : list (string * string) :=
  [ ("Biller already Registered",
     "This shortcode is already opted into Bill Manager. You do not need to opt-in again.");
    ("Invalid consumerkey/shortcode",
     "Invalid credentials. Please ensure the 'consumerKey' and 'shortCode' you are using are correct and linked.");
    ("Another entry exist",
     "Duplicate Invoice. An invoice with this 'externalReference' number already exists. Please use a unique reference for each invoice.");
    ("Incorrect phone number format",
     "Invalid Phone Number. Please ensure the 'billedPhoneNumber' is a valid Safaricom number in the format 07XXXXXXXX.");
    ("Incorrect due date format",
     "Invalid Date Format. Please ensure the 'dueDate' is in the format YYYY-MM-DD.");
    ("cannot be cancelled",
     "Invoice Cannot Be Cancelled. The invoice has likely been partially or fully paid. Only unpaid invoices can be cancelled.") ].

Definition C2B_otherwise (errorMessage : value) : string :=
  "An internal server error occurred at the API. Please try again later. Details: "
  ++ to_String errorMessage.

Definition BillManager_otherwise (errorMessage : value) : string :=
  "A conflict error occurred. The API returned: " ++ to_String errorMessage.

Definition default_message (status : Z) (errorMessage : value) : string :=
  "The API request failed with status code " ++ decimal status
  ++ ". The API returned the following message: " ++ to_String errorMessage.

(** The statement list of each clause: the value assigned to
    [userMessage]. *)
Definition userMessage_of (c : clause) (status : Z) (errorMessage : value)
  : completion string :=
  match c with
  | AuthenticationFailed =>
      Normal ("Authentication Failed. Please check if your Consumer Key and Consumer Secret are correct. The Daraja API returned: " ++ to_String errorMessage)
  | InvalidGrantType =>
      Normal ("Invalid Grant Type. The library sent 'client_credentials' as required, but the API rejected it. This may be a temporary issue with the API. The Daraja API returned: " ++ to_String errorMessage)
  | InvalidAuthenticationHeader =>
      Normal ("Invalid Authentication Header. This can happen if the access token is missing or incorrect. The Daraja API returned: " ++ to_String errorMessage)
  | InvalidRequestPayload =>
      Normal ("Invalid Request Payload. Please check that all required parameters for this API call are correct and have the right format. The Daraja API returned: " ++ to_String errorMessage)
  | InvalidAccessToken =>
      Normal ("Invalid Access Token. Your token has likely expired. The library will automatically try to get a new one on the next request. The Daraja API returned: " ++ to_String errorMessage)
  | InsufficientFunds =>
      Normal "Insufficient Funds. The customer's M-Pesa account has insufficient funds to complete the transaction. Please advise the customer to top up or use Fuliza."
  | TransactionInProgress =>
      Normal "Transaction in Progress. The customer has another M-Pesa transaction in progress. Please advise them to complete or cancel the other transaction before retrying."
  | TransactionExpired =>
      Normal "Transaction Expired. The request took too long to process and has expired. Please try initiating the transaction again."
  | PushInternalError =>
      Normal "An internal error occurred while sending the push request. This might be a temporary issue with the M-Pesa service. Please try again shortly."
  | RequestCancelledByUser =>
      Normal "Request Cancelled by User. The customer cancelled the M-Pesa PIN entry prompt on their phone."
  | STKPushTimeout =>
      Normal "STK Push Timeout. The request timed out because the customer's phone was unreachable or they did not respond in time. Please ensure the customer's phone is online and advise them to try again."
  | InvalidPIN => Normal Invalid_PIN
  | DuplicateRequest =>
      Normal "Duplicate Request. A request with the same unique identifier has already been processed. Please ensure each request has a unique OriginatorConversationID."
  | InternalFailure =>
      Normal "Internal Failure. An unspecified error occurred within the M-Pesa system. Please try again later."
  | InitiatorCredentialCheckFailure =>
      Normal "Initiator Credential Check Failure. The Security Credential provided is incorrect. Please verify and encrypt your initiator password again."
  | UnresolvedInitiator =>
      Normal "Unresolved Initiator. The InitiatorName you provided could not be found. Please check your credentials."
  | PermissionFailure =>
      Normal "Permission Failure. The initiator does not have permission to perform this action on the specified shortcode."
  | SystemBusy =>
      Normal "System Busy. The M-Pesa system is currently experiencing high traffic. Please try your request again in a few moments."
  | InvalidInitiatorInformation => Normal Invalid_Initiator_Information
  | InvalidInitiatorInformationB2C => Normal Invalid_Initiator_Information
  | MerchantKYCFail =>
      Normal "Merchant KYC Fail. There is an issue with the merchant's account details (KYC). Please ensure the merchant's account is fully compliant."
  | MissingNominatedNumber =>
      Normal "Missing Nominated Number. The merchant's Till Number is not properly configured with a nominated phone number on the M-Pesa portal."
  | USSDNetworkError =>
      Normal "USSD Network Error. There was a problem with the USSD network when trying to send the prompt to the merchant. This is often temporary. Please try again."
  | C2BRegisterUrl =>
      first_phrase errorMessage C2B_phrases (C2B_otherwise errorMessage)
  | BillManagerConflict =>
      first_phrase errorMessage BillManager_phrases
        (BillManager_otherwise errorMessage)
  | Default => Normal (default_message status errorMessage)
  end.

Definition no_response_message : string :=
  "The request failed because no response was received from the Safaricom server. This could be due to a network issue or the Daraja API being temporarily unavailable. Please check your internet connection and try again.".

Definition setup_message (error : failure) : string :=
  "An unexpected error occurred while setting up the API request: "
  ++ message error.

(** The method returns the [Error] for the caller to throw; it completes
    abruptly itself when a property read or a method call inside it
    throws. *)
Definition _handleError (error : failure) : completion thrown :=
  match response error with
  | Some r =>
      let? errorCode := errorCode_of (data r) in
      let? errorMessage := errorMessage_of (data r) in
      let? userMessage :=
        userMessage_of (select (to_String errorCode) cases) (status r)
          errorMessage in
      Normal (Error userMessage)
  | None =>
      if request error then Normal (Error no_response_message)
      else Normal (Error (setup_message error))
  end.

(** *** [_getAuthToken] and [_makeRequest] *)

(** The string a field contributes to a concatenation or a template. *)
Definition text_of (f : option string) : string :=
  match f with
  | Some s => s
  | None => "undefined"
  end.

(** [throw this._handleError(error)] *)
Definition throw_normalized {A} (error : failure) : M A :=
  match _handleError error with
  | Normal e => throw e
  | Abrupt e => throw e
  end.

Definition token_path : string :=
  "/oauth/v1/generate?grant_type=client_credentials".

Definition _getAuthToken : M string :=
  this <- read_this ;;
  usable <-
    (if truthy_field (token this) then
       match tokenExpiresAt this with
       | Some expiresAt =>
           if negb (expiresAt =? 0) then
             now <- Date_now ;;
             ret (expiresAt >? now)
           else ret false
       | None => ret false
       end
     else ret false) ;;
  if (usable : bool) then ret (text_of (token this))
  else
    let auth :=
      Base64.base64 (consumerKey this ++ ":" ++ consumerSecret this) in
    reply <- axios_get {| base := baseUrl this; path := token_path |}
               ("Basic " ++ auth) ;;
    match reply with
    | Resolved payload =>
        write_this (set_token this (access_token payload)) ;;;
        now <- Date_now ;;
        this1 <- read_this ;;
        write_this
          (set_tokenExpiresAt this1 (now + (expires_in payload - 60) * 1000)) ;;;
        this2 <- read_this ;;
        ret (text_of (token this2))
    | Rejected error => throw_normalized error
    end.

Definition _makeRequest (endpoint : string) (body : value) : M value :=
  token <- _getAuthToken ;;
  this <- read_this ;;
  reply <- axios_post {| base := baseUrl this; path := endpoint |} body
             ("Bearer " ++ token) ;;
  match reply with
  | Resolved payload => ret payload
  | Rejected error => throw_normalized error
  end.

(** *** The credential-guarded operations *)

Definition field_value (f : option string) : value :=
  match f with
  | Some s => JStr s
  | None => JUndefined
  end.

(** [params.k] *)
Definition param (params : value) (k : string) : M value :=
  lift (get params k).

(** [params.k || "fallback"] *)
Definition param_or (params : value) (k fallback : string) : M value :=
  lift (let? v := get params k in or_else v (Normal (JStr fallback))).

Definition stkPush (params : value) : M value :=
  this <- read_this ;;
  if negb (truthy_field (passkey this))
  then throw (Error "Passkey is required for STK Push.")
  else
    let endpoint := "/mpesa/stkpush/v1/processrequest" in
    timestamp <- _getTimestamp ;;
    let password :=
      Base64.base64 (shortCode this ++ text_of (passkey this) ++ timestamp) in
    TransactionType <- param_or params "TransactionType" "CustomerPayBillOnline" ;;
    Amount <- param params "Amount" ;;
    PartyA <- param params "PhoneNumber" ;;
    PhoneNumber <- param params "PhoneNumber" ;;
    CallBackURL <- param params "CallBackURL" ;;
    AccountReference <- param params "AccountReference" ;;
    TransactionDesc <- param params "TransactionDesc" ;;
    _makeRequest endpoint
      (JObj [ ("BusinessShortCode", JStr (shortCode this));
              ("Password", JStr password);
              ("Timestamp", JStr timestamp);
              ("TransactionType", TransactionType);
              ("Amount", Amount);
              ("PartyA", PartyA);
              ("PartyB", JStr (shortCode this));
              ("PhoneNumber", PhoneNumber);
              ("CallBackURL", CallBackURL);
              ("AccountReference", AccountReference);
              ("TransactionDesc", TransactionDesc) ]).

Definition stkQuery (params : value) : M value :=
  this <- read_this ;;
  if negb (truthy_field (passkey this))
  then throw (Error "Passkey is required for STK Query.")
  else
    let endpoint := "/mpesa/stkpushquery/v1/query" in
    timestamp <- _getTimestamp ;;
    let password :=
      Base64.base64 (shortCode this ++ text_of (passkey this) ++ timestamp) in
    CheckoutRequestID <- param params "CheckoutRequestID" ;;
    _makeRequest endpoint
      (JObj [ ("BusinessShortCode", JStr (shortCode this));
              ("Password", JStr password);
              ("Timestamp", JStr timestamp);
              ("CheckoutRequestID", CheckoutRequestID) ]).

Definition b2c (params : value) : M value :=
  this <- read_this ;;
  if negb (truthy_field (initiatorName this))
     || negb (truthy_field (securityCredential this))
  then throw (Error "InitiatorName and SecurityCredential are required for B2C transactions.")
  else
    let endpoint := "/mpesa/b2c/v1/paymentrequest" in
    CommandID <- param_or params "CommandID" "BusinessPayment" ;;
    Amount <- param params "Amount" ;;
    PartyB <- param params "PartyB" ;;
    Remarks <- param params "Remarks" ;;
    QueueTimeOutURL <- param params "QueueTimeOutURL" ;;
    ResultURL <- param params "ResultURL" ;;
    Occasion <- param params "Occasion" ;;
    _makeRequest endpoint
      (JObj [ ("InitiatorName", field_value (initiatorName this));
              ("SecurityCredential", field_value (securityCredential this));
              ("CommandID", CommandID);
              ("Amount", Amount);
              ("PartyA", JStr (shortCode this));
              ("PartyB", PartyB);
              ("Remarks", Remarks);
              ("QueueTimeOutURL", QueueTimeOutURL);
              ("ResultURL", ResultURL);
              ("Occasion", Occasion) ]).

Definition transactionStatus (params : value) : M value :=
  this <- read_this ;;
  if negb (truthy_field (initiatorName this))
     || negb (truthy_field (securityCredential this))
  then throw (Error "InitiatorName and SecurityCredential are required for Transaction Status Query.")
  else
    let endpoint := "/mpesa/transactionstatus/v1/query" in
    TransactionID <- param params "TransactionID" ;;
    IdentifierType <- param_or params "IdentifierType" "4" ;;
    ResultURL <- param params "ResultURL" ;;
    QueueTimeOutURL <- param params "QueueTimeOutURL" ;;
    Remarks <- param params "Remarks" ;;
    Occasion <- param params "Occasion" ;;
    _makeRequest endpoint
      (JObj [ ("Initiator", field_value (initiatorName this));
              ("SecurityCredential", field_value (securityCredential this));
              ("CommandID", JStr "TransactionStatusQuery");
              ("TransactionID", TransactionID);
              ("PartyA", JStr (shortCode this));
              ("IdentifierType", IdentifierType);
              ("ResultURL", ResultURL);
              ("QueueTimeOutURL", QueueTimeOutURL);
              ("Remarks", Remarks);
              ("Occasion", Occasion) ]).

Definition accountBalance (params : value) : M value :=
  this <- read_this ;;
  if negb (truthy_field (initiatorName this))
     || negb (truthy_field (securityCredential this))
  then throw (Error "InitiatorName and SecurityCredential are required for Account Balance Query.")
  else
    let endpoint := "/mpesa/accountbalance/v1/query" in
    IdentifierType <- param_or params "IdentifierType" "4" ;;
    Remarks <- param_or params "Remarks" "Balance Check" ;;
    QueueTimeOutURL <- param params "QueueTimeOutURL" ;;
    ResultURL <- param params "ResultURL" ;;
    _makeRequest endpoint
      (JObj [ ("Initiator", field_value (initiatorName this));
              ("SecurityCredential", field_value (securityCredential this));
              ("CommandID", JStr "AccountBalance");
              ("PartyA", JStr (shortCode this));
              ("IdentifierType", IdentifierType);
              ("Remarks", Remarks);
              ("QueueTimeOutURL", QueueTimeOutURL);
              ("ResultURL", ResultURL) ]).

Definition reversal (params : value) : M value :=
  this <- read_this ;;
  if negb (truthy_field (initiatorName this))
     || negb (truthy_field (securityCredential this))
  then throw (Error "InitiatorName and SecurityCredential are required for Reversals.")
  else
    let endpoint := "/mpesa/reversal/v1/request" in
    TransactionID <- param params "TransactionID" ;;
    Amount <- param params "Amount" ;;
    RecieverIdentifierType <- param_or params "RecieverIdentifierType" "11" ;;
    ResultURL <- param params "ResultURL" ;;
    QueueTimeOutURL <- param params "QueueTimeOutURL" ;;
    Remarks <- param_or params "Remarks" "Reversal" ;;
    Occasion <- param params "Occasion" ;;
    _makeRequest endpoint
      (JObj [ ("Initiator", field_value (initiatorName this));
              ("SecurityCredential", field_value (securityCredential this));
              ("CommandID", JStr "TransactionReversal");
              ("TransactionID", TransactionID);
              ("Amount", Amount);
              ("ReceiverParty", JStr (shortCode this));
              ("RecieverIdentifierType", RecieverIdentifierType);
              ("ResultURL", ResultURL);
              ("QueueTimeOutURL", QueueTimeOutURL);
              ("Remarks", Remarks);
              ("Occasion", Occasion) ]).

Definition taxRemittance (params : value) : M value :=
  this <- read_this ;;
  if negb (truthy_field (initiatorName this))
     || negb (truthy_field (securityCredential this))
  then throw (Error "InitiatorName and SecurityCredential are required for Tax Remittance.")
  else
    let endpoint := "/mpesa/b2b/v1/remittax" in
    Amount <- param params "Amount" ;;
    AccountReference <- param params "AccountReference" ;;
    Remarks <- param_or params "Remarks" "Tax Payment" ;;
    QueueTimeOutURL <- param params "QueueTimeOutURL" ;;
    ResultURL <- param params "ResultURL" ;;
    _makeRequest endpoint
      (JObj [ ("Initiator", field_value (initiatorName this));
              ("SecurityCredential", field_value (securityCredential this));
              ("CommandID", JStr "PayTaxToKRA");
              ("SenderIdentifierType", JStr "4");
              ("RecieverIdentifierType", JStr "4");
              ("Amount", Amount);
              ("PartyA", JStr (shortCode this));
              ("PartyB", JStr "572572");
              ("AccountReference", AccountReference);
              ("Remarks", Remarks);
              ("QueueTimeOutURL", QueueTimeOutURL);
              ("ResultURL", ResultURL) ]).

Definition b2b (params : value) : M value :=
  this <- read_this ;;
  if negb (truthy_field (initiatorName this))
     || negb (truthy_field (securityCredential this))
  then throw (Error "InitiatorName and SecurityCredential are required for B2B transactions.")
  else
    let endpoint := "/mpesa/b2b/v1/paymentrequest" in
    CommandID <- param_or params "CommandID" "BusinessPayBill" ;;
    Amount <- param params "Amount" ;;
    PartyB <- param params "PartyB" ;;
    AccountReference <- param params "AccountReference" ;;
    Requester <- param params "Requester" ;;
    Remarks <- param_or params "Remarks" "Business Payment" ;;
    QueueTimeOutURL <- param params "QueueTimeOutURL" ;;
    ResultURL <- param params "ResultURL" ;;
    _makeRequest endpoint
      (JObj [ ("Initiator", field_value (initiatorName this));
              ("SecurityCredential", field_value (securityCredential this));
              ("CommandID", CommandID);
              ("SenderIdentifierType", JStr "4");
              ("RecieverIdentifierType", JStr "4");
              ("Amount", Amount);
              ("PartyA", JStr (shortCode this));
              ("PartyB", PartyB);
              ("AccountReference", AccountReference);
              ("Requester", Requester);
              ("Remarks", Remarks);
              ("QueueTimeOutURL", QueueTimeOutURL);
              ("ResultURL", ResultURL) ]).

Definition b2cAccountTopUp (params : value) : M value :=
  this <- read_this ;;
  if negb (truthy_field (initiatorName this))
     || negb (truthy_field (securityCredential this))
  then throw (Error "InitiatorName and SecurityCredential are required for B2C Account Top Up.")
  else
    let endpoint := "/mpesa/b2b/v1/paymentrequest" in
    Amount <- param params "Amount" ;;
    PartyB <- param params "PartyB" ;;
    Remarks <- param_or params "Remarks" "B2C Top Up" ;;
    QueueTimeOutURL <- param params "QueueTimeOutURL" ;;
    ResultURL <- param params "ResultURL" ;;
    _makeRequest endpoint
      (JObj [ ("Initiator", field_value (initiatorName this));
              ("SecurityCredential", field_value (securityCredential this));
              ("CommandID", JStr "BusinessPayToBulk");
              ("SenderIdentifierType", JStr "4");
              ("RecieverIdentifierType", JStr "4");
              ("Amount", Amount);
              ("PartyA", JStr (shortCode this));
              ("PartyB", PartyB);
              ("AccountReference", JStr "B2C Top Up");
              ("Remarks", Remarks);
              ("QueueTimeOutURL", QueueTimeOutURL);
              ("ResultURL", ResultURL) ]).

(** The methods that check a credential of the instance before anything
    else. *)
Inductive operation : Type :=
| op_stkPush
| op_stkQuery
| op_b2c
| op_transactionStatus
| op_accountBalance
| op_reversal
| op_taxRemittance
| op_b2b
| op_b2cAccountTopUp.

Definition invoke (op : operation) : value -> M value :=
  match op with
  | op_stkPush => stkPush
  | op_stkQuery => stkQuery
  | op_b2c => b2c
  | op_transactionStatus => transactionStatus
  | op_accountBalance => accountBalance
  | op_reversal => reversal
  | op_taxRemittance => taxRemittance
  | op_b2b => b2b
  | op_b2cAccountTopUp => b2cAccountTopUp
  end.

(** *** The operations without a credential check

    [billManagerUpdateOptIn] is left out: its body is the object spread
    [{shortcode, ...params}], whose result depends on the enumeration order
    of the properties of an arbitrary [params]. *)

Definition c2bRegister (params : value) : M value :=
  this <- read_this ;;
  let endpoint := "/mpesa/c2b/v1/registerurl" in
  ResponseType <- param_or params "ResponseType" "Completed" ;;
  ConfirmationURL <- param params "ConfirmationURL" ;;
  ValidationURL <- param params "ValidationURL" ;;
  _makeRequest endpoint
    (JObj [ ("ShortCode", JStr (shortCode this));
            ("ResponseType", ResponseType);
            ("ConfirmationURL", ConfirmationURL);
            ("ValidationURL", ValidationURL) ]).

Definition c2bSimulate (params : value) : M value :=
  this <- read_this ;;
  let endpoint := "/mpesa/c2b/v1/simulate" in
  CommandID <- param_or params "CommandID" "CustomerPayBillOnline" ;;
  Amount <- param params "Amount" ;;
  Msisdn <- param params "Msisdn" ;;
  BillRefNumber <- param params "BillRefNumber" ;;
  _makeRequest endpoint
    (JObj [ ("ShortCode", JStr (shortCode this));
            ("CommandID", CommandID);
            ("Amount", Amount);
            ("Msisdn", Msisdn);
            ("BillRefNumber", BillRefNumber) ]).

Definition dynamicQR (params : value) : M value :=
  let endpoint := "/mpesa/qrcode/v1/generate" in
  MerchantName <- param params "MerchantName" ;;
  RefNo <- param params "RefNo" ;;
  Amount <- param params "Amount" ;;
  TrxCode <- param params "TrxCode" ;;
  CPI <- param params "CPI" ;;
  Size <- param params "Size" ;;
  _makeRequest endpoint
    (JObj [ ("MerchantName", MerchantName);
            ("RefNo", RefNo);
            ("Amount", Amount);
            ("TrxCode", TrxCode);
            ("CPI", CPI);
            ("Size", Size) ]).

Definition billManagerOptIn (params : value) : M value :=
  this <- read_this ;;
  let endpoint := "/v1/billmanager-invoice/optin" in
  email <- param params "email" ;;
  officialContact <- param params "officialContact" ;;
  sendReminders <- param_or params "sendReminders" "1" ;;
  logo <- param params "logo" ;;
  callbackurl <- param params "callbackurl" ;;
  _makeRequest endpoint
    (JObj [ ("shortcode", JStr (shortCode this));
            ("email", email);
            ("officialContact", officialContact);
            ("sendReminders", sendReminders);
            ("logo", logo);
            ("callbackurl", callbackurl) ]).

Definition billManagerSingleInvoice (params : value) : M value :=
  let endpoint := "/v1/billmanager-invoice/single-invoicing" in
  _makeRequest endpoint params.

Definition billManagerBulkInvoice (invoices : value) : M value :=
  let endpoint := "/v1/billmanager-invoice/bulk-invoicing" in
  _makeRequest endpoint invoices.

Definition billManagerCancelSingleInvoice (params : value) : M value :=
  let endpoint := "/v1/billmanager-invoice/cancel-single-invoice" in
  _makeRequest endpoint params.

Definition billManagerCancelBulkInvoice (invoices : value) : M value :=
  let endpoint := "/v1/billmanager-invoice/cancel-bulk-invoices" in
  _makeRequest endpoint invoices.

Definition b2bExpressCheckout (params : value) : M value :=
  this <- read_this ;;
  let endpoint := "/v1/ussdpush/get-msisdn" in
  primaryShortCode <- param params "primaryShortCode" ;;
  amount <- param params "amount" ;;
  paymentRef <- param params "paymentRef" ;;
  callbackUrl <- param params "callbackUrl" ;;
  partnerName <- param params "partnerName" ;;
  RequestRefID <- param params "RequestRefID" ;;
  _makeRequest endpoint
    (JObj [ ("primaryShortCode", primaryShortCode);
            ("receiverShortCode", JStr (shortCode this));
            ("amount", amount);
            ("paymentRef", paymentRef);
            ("callbackUrl", callbackUrl);
            ("partnerName", partnerName);
            ("RequestRefID", RequestRefID) ]).

Definition createStandingOrder (params : value) : M value :=
  this <- read_this ;;
  let endpoint := "/standingorder/v1/createStandingOrderExternal" in
  StandingOrderName <- param params "StandingOrderName" ;;
  StartDate <- param params "StartDate" ;;
  EndDate <- param params "EndDate" ;;
  TransactionType <- param_or params "TransactionType" "Standing Order Customer Pay Bill" ;;
  Amount <- param params "Amount" ;;
  PartyA <- param params "PartyA" ;;
  CallBackURL <- param params "CallBackURL" ;;
  AccountReference <- param params "AccountReference" ;;
  TransactionDesc <- param_or params "TransactionDesc" "Standing Order" ;;
  Frequency <- param params "Frequency" ;;
  _makeRequest endpoint
    (JObj [ ("StandingOrderName", StandingOrderName);
            ("StartDate", StartDate);
            ("EndDate", EndDate);
            ("BusinessShortCode", JStr (shortCode this));
            ("TransactionType", TransactionType);
            ("ReceiverPartyIdentifierType", JStr "4");
            ("Amount", Amount);
            ("PartyA", PartyA);
            ("CallBackURL", CallBackURL);
            ("AccountReference", AccountReference);
            ("TransactionDesc", TransactionDesc);
            ("Frequency", Frequency) ]).

Inductive open_operation : Type :=
| op_c2bRegister
| op_c2bSimulate
| op_dynamicQR
| op_billManagerOptIn
| op_billManagerSingleInvoice
| op_billManagerBulkInvoice
| op_billManagerCancelSingleInvoice
| op_billManagerCancelBulkInvoice
| op_b2bExpressCheckout
| op_createStandingOrder.

Definition invoke_open (op : open_operation) : value -> M value :=
  match op with
  | op_c2bRegister => c2bRegister
  | op_c2bSimulate => c2bSimulate
  | op_dynamicQR => dynamicQR
  | op_billManagerOptIn => billManagerOptIn
  | op_billManagerSingleInvoice => billManagerSingleInvoice
  | op_billManagerBulkInvoice => billManagerBulkInvoice
  | op_billManagerCancelSingleInvoice => billManagerCancelSingleInvoice
  | op_billManagerCancelBulkInvoice => billManagerCancelBulkInvoice
  | op_b2bExpressCheckout => b2bExpressCheckout
  | op_createStandingOrder => createStandingOrder
  end.

(** The public methods of the class that are embedded. *)
Inductive method : Type :=
| Guarded (op : operation)
| Open (op : open_operation).

Definition perform (m : method) : value -> M value :=
  match m with
  | Guarded op => invoke op
  | Open op => invoke_open op
  end.

End Safaricom.

(** ** The vocabulary of the specification *)

Module Observed.
Import JS Safaricom.

Definition is_GET (e : event) : bool :=
  match e with
  | GET _ _ => true
  | POST _ _ _ => false
  end.

Definition is_POST (e : event) : bool := negb (is_GET e).

(** The only [axios.get] of the client addresses the token endpoint, and
    every [axios.post] a target endpoint. *)
Definition token_endpoint_calls (out : list event) : nat :=
  List.length (filter is_GET out).

Definition target_endpoint_calls (out : list event) : nat :=
  List.length (filter is_POST out).

Definition token_url (c : client) : target :=
  {| base := baseUrl c; path := token_path |}.

Definition basic_authorization (c : client) : string :=
  "Basic " ++ Base64.base64 (consumerKey c ++ ":" ++ consumerSecret c).

(** "A cached token exists and the current instant is strictly before its
    cached expiry": the slot holds a token that is not the empty string,
    and an expiry that is not zero and lies after [now]. *)
Definition cached_token_valid (c : client) (now : Z) : Prop :=
  exists t expiry,
    token c = Some t /\ t <> "" /\
    tokenExpiresAt c = Some expiry /\ expiry <> 0 /\ now < expiry.

(** The guard of [_getAuthToken] consults the clock only when both slots
    are truthy; the request, if any, is the interaction after that. *)
Definition consults_clock (c : client) : bool :=
  truthy_field (token c)
  && match tokenExpiresAt c with
     | Some expiry => negb (expiry =? 0)
     | None => false
     end.

Definition fetch_step (h : heap) : nat :=
  if consults_clock (self h) then S (steps h) else steps h.

(** The heap a successful fetch leaves: [payload] was received at
    [fetch_step h], the clock was read right after. *)
Definition refreshed (w : world) (h : heap) (payload : token_data) : heap :=
  {| self :=
       set_tokenExpiresAt (set_token (self h) (access_token payload))
         (clock w (S (fetch_step h)) + (expires_in payload - 60) * 1000);
     steps := S (S (fetch_step h)) |}.

(** Fixed-width decimal fields. *)
Definition digit (n : Z) : ascii := ascii_of_N (48 + Z.to_N n).

Definition two_digits (n : Z) : string :=
  String (digit (n / 10)) (String (digit (n mod 10)) "").

Definition four_digits (n : Z) : string :=
  String (digit (n / 1000))
    (String (digit (n / 100 mod 10))
       (String (digit (n / 10 mod 10)) (String (digit (n mod 10)) ""))).

(** YYYYMMDDHHMMSS *)
Definition YYYYMMDDHHMMSS (date : calendar) : string :=
  four_digits (getFullYear date) ++ two_digits (getMonth date + 1)
  ++ two_digits (getDate date) ++ two_digits (getHours date)
  ++ two_digits (getMinutes date) ++ two_digits (getSeconds date).

(** A date of the common era with a four-digit year, as the getters of
    [Date] report it (months count from 0). *)
Definition four_digit_year_date (date : calendar) : Prop :=
  1000 <= getFullYear date <= 9999 /\ 0 <= getMonth date <= 11 /\
  1 <= getDate date <= 31 /\ 0 <= getHours date <= 23 /\
  0 <= getMinutes date <= 59 /\ 0 <= getSeconds date <= 59.

(** Which credential an operation requires. *)
Definition requires_passkey (op : operation) : bool :=
  match op with
  | op_stkPush | op_stkQuery => true
  | _ => false
  end.

Definition missing_credential (op : operation) (c : client) : bool :=
  if requires_passkey op then negb (truthy_field (passkey c))
  else negb (truthy_field (initiatorName c))
       || negb (truthy_field (securityCredential c)).

Definition configuration_error (op : operation) : thrown :=
  Error
    match op with
    | op_stkPush => "Passkey is required for STK Push."
    | op_stkQuery => "Passkey is required for STK Query."
    | op_b2c =>
        "InitiatorName and SecurityCredential are required for B2C transactions."
    | op_transactionStatus =>
        "InitiatorName and SecurityCredential are required for Transaction Status Query."
    | op_accountBalance =>
        "InitiatorName and SecurityCredential are required for Account Balance Query."
    | op_reversal =>
        "InitiatorName and SecurityCredential are required for Reversals."
    | op_taxRemittance =>
        "InitiatorName and SecurityCredential are required for Tax Remittance."
    | op_b2b =>
        "InitiatorName and SecurityCredential are required for B2B transactions."
    | op_b2cAccountTopUp =>
        "InitiatorName and SecurityCredential are required for B2C Account Top Up."
    end.

Definition endpoint_of (op : operation) : string :=
  match op with
  | op_stkPush => "/mpesa/stkpush/v1/processrequest"
  | op_stkQuery => "/mpesa/stkpushquery/v1/query"
  | op_b2c => "/mpesa/b2c/v1/paymentrequest"
  | op_transactionStatus => "/mpesa/transactionstatus/v1/query"
  | op_accountBalance => "/mpesa/accountbalance/v1/query"
  | op_reversal => "/mpesa/reversal/v1/request"
  | op_taxRemittance => "/mpesa/b2b/v1/remittax"
  | op_b2b => "/mpesa/b2b/v1/paymentrequest"
  | op_b2cAccountTopUp => "/mpesa/b2b/v1/paymentrequest"
  end.

(** The options of a client with the three required credentials. *)
Definition valid_credentials (o : Options.t) : Prop :=
  exists key secret code,
    Options.consumerKey o = Some key /\ key <> "" /\
    Options.consumerSecret o = Some secret /\ secret <> "" /\
    Options.shortCode o = Some code /\ code <> "".

(** Probing a body "in priority order": [field] and [nested] read a
    top-level and a nested field of a body, [first_truthy] keeps the first
    candidate that is present (truthy) and falls back on the last probe. *)
Definition field (body : value) (k : string) : value :=
  match body with
  | JObj fields =>
      match lookup k fields with
      | Some x => x
      | None => JUndefined
      end
  | _ => JUndefined
  end.

Definition nested (body : value) (outer inner : string) : value :=
  if truthy (field body outer) then field (field body outer) inner else JNull.

Fixpoint first_truthy (candidates : list value) (last : value) : value :=
  match candidates with
  | [] => last
  | c :: rest => if truthy c then c else first_truthy rest last
  end.

Definition nullish (v : value) : Prop := v = JUndefined \/ v = JNull.

(** The phrase of a chain that decides the message: the first one that
    occurs in [message]. *)
Fixpoint first_occurring (message : string) (chain : list (string * string))
  : option string :=
  match chain with
  | [] => None
  | (phrase, text) :: rest =>
      if string_includes message phrase then Some text
      else first_occurring message rest
  end.

(** [throw this._handleError(error)] always completes abruptly: with the
    normalized [Error] when the normalizer returns, with what the
    normalizer threw otherwise. *)
Definition propagated (error : failure) : thrown :=
  match _handleError error with
  | Normal e => e
  | Abrupt e => e
  end.

(** The password of the passkey-authenticated operations, by the words of
    the specification: base64(shortCode + passkey + timestamp). *)
Definition derived_password (code key timestamp : string) : string :=
  Base64.base64 (code ++ key ++ timestamp).

(** [check] holds on the [count] integers from [from] on. *)
Fixpoint all_from (from : Z) (count : nat) (check : Z -> bool) : bool :=
  match count with
  | O => true
  | S k => check from && all_from (from + 1) k check
  end.

(** The failure of a call that got an answer outside 2xx. *)
Definition answered (status : Z) (body : value) : failure :=
  {| response := Some {| status := status; data := body |};
     request := true;
     message := "Request failed with status code " ++ decimal status |}.

End Observed.

(** ** A concrete client and world, after the test suite *)

Module Mock.
Import JS Safaricom Observed.

Definition mockOptions : Options.t :=
  {| Options.consumerKey := Some "test_key";
     Options.consumerSecret := Some "test_secret";
     Options.shortCode := Some "600988";
     Options.passkey := Some "test_passkey";
     Options.initiatorName := Some "test_initiator";
     Options.securityCredential := Some "test_credential";
     Options.environment := Some "sandbox" |}.

Definition with_environment (env : option string) : Options.t :=
  {| Options.consumerKey := Some "test_key";
     Options.consumerSecret := Some "test_secret";
     Options.shortCode := Some "600988";
     Options.passkey := Some "test_passkey";
     Options.initiatorName := Some "test_initiator";
     Options.securityCredential := Some "test_credential";
     Options.environment := env |}.

Definition safaricom : client :=
  {| consumerKey := "test_key";
     consumerSecret := "test_secret";
     shortCode := "600988";
     passkey := Some "test_passkey";
     initiatorName := Some "test_initiator";
     securityCredential := Some "test_credential";
     environment := "sandbox";
     baseUrl := Own "https://sandbox.safaricom.co.ke";
     token := None;
     tokenExpiresAt := None |}.

(** The same client without [passkey], [initiatorName] and
    [securityCredential]. *)
Definition bare : client :=
  {| consumerKey := "test_key";
     consumerSecret := "test_secret";
     shortCode := "600988";
     passkey := None;
     initiatorName := None;
     securityCredential := None;
     environment := "sandbox";
     baseUrl := Own "https://sandbox.safaricom.co.ke";
     token := None;
     tokenExpiresAt := None |}.

(** 2023-01-01 00:00:00, the fixed timestamp of the tests. *)
Definition new_year : calendar :=
  {| getFullYear := 2023; getMonth := 0; getDate := 1;
     getHours := 0; getMinutes := 0; getSeconds := 0 |}.

Definition mockTokenResponse : token_data :=
  {| access_token := "api_token"; expires_in := 3599 |}.

Definition success : value := JObj [("message", JStr "Success")].

(** One millisecond passes between two interactions; both endpoints
    answer as the mocks of the tests do. *)
Definition mocked : world :=
  {| clock := fun n => 1672531200000 + Z.of_nat n;
     local_time := fun _ => new_year;
     get_reply := fun _ _ _ => Resolved mockTokenResponse;
     post_reply := fun _ _ _ _ => Resolved success |}.

(** A world whose token endpoint rejects with [error]. *)
Definition token_endpoint_rejects (error : failure) : world :=
  {| clock := clock mocked;
     local_time := local_time mocked;
     get_reply := fun _ _ _ => Rejected error;
     post_reply := post_reply mocked |}.

(** A world whose target endpoints reject with [error]. *)
Definition target_endpoint_rejects (error : failure) : world :=
  {| clock := clock mocked;
     local_time := local_time mocked;
     get_reply := get_reply mocked;
     post_reply := fun _ _ _ _ => Rejected error |}.

Definition fresh : heap := {| self := safaricom; steps := 0 |}.

(** A client holding a token that expired long ago. *)
Definition stale : heap :=
  {| self := set_tokenExpiresAt (set_token safaricom "old_token") 1000;
     steps := 0 |}.

(** A client holding a token that is valid for the next hour. *)
Definition warm : heap :=
  {| self := set_tokenExpiresAt (set_token safaricom "api_token")
               (1672531200000 + 3539000);
     steps := 0 |}.

Definition stkPushParams : value :=
  JObj [ ("Amount", JNum 1);
         ("PhoneNumber", JStr "254712345678");
         ("CallBackURL", JStr "https://test.com/callback");
         ("AccountReference", JStr "Test-Ref");
         ("TransactionDesc", JStr "Test Desc") ].

(** No answer at all: the request left, nothing came back. *)
Definition no_answer : failure :=
  {| response := None; request := true; message := "Network Error" |}.

Definition null_body : failure := answered 500 JNull.

Definition numeric_message : failure :=
  answered 409 (JObj [("errorCode", JStr "409"); ("errorMessage", JNum 42)]).

(** A token endpoint that grants tokens for one minute only. *)
Definition short_lived : world :=
  {| clock := clock mocked;
     local_time := local_time mocked;
     get_reply :=
       fun _ _ _ => Resolved {| access_token := "api_token"; expires_in := 60 |};
     post_reply := post_reply mocked |}.

End Mock.

(** ** The vocabulary of the properties beyond the specification *)

Module Vocabulary.
Import JS Safaricom Observed.

Definition endpoint_of_open (op : open_operation) : string :=
  match op with
  | op_c2bRegister => "/mpesa/c2b/v1/registerurl"
  | op_c2bSimulate => "/mpesa/c2b/v1/simulate"
  | op_dynamicQR => "/mpesa/qrcode/v1/generate"
  | op_billManagerOptIn => "/v1/billmanager-invoice/optin"
  | op_billManagerSingleInvoice => "/v1/billmanager-invoice/single-invoicing"
  | op_billManagerBulkInvoice => "/v1/billmanager-invoice/bulk-invoicing"
  | op_billManagerCancelSingleInvoice =>
      "/v1/billmanager-invoice/cancel-single-invoice"
  | op_billManagerCancelBulkInvoice =>
      "/v1/billmanager-invoice/cancel-bulk-invoices"
  | op_b2bExpressCheckout => "/v1/ussdpush/get-msisdn"
  | op_createStandingOrder => "/standingorder/v1/createStandingOrderExternal"
  end.

Definition endpoint_for (m : method) : string :=
  match m with
  | Guarded op => endpoint_of op
  | Open op => endpoint_of_open op
  end.

(** The fields the constructor sets once and for all. *)
Definition same_configuration (c c' : client) : Prop :=
  consumerKey c' = consumerKey c /\ consumerSecret c' = consumerSecret c
  /\ shortCode c' = shortCode c /\ passkey c' = passkey c
  /\ initiatorName c' = initiatorName c
  /\ securityCredential c' = securityCredential c
  /\ environment c' = environment c /\ baseUrl c' = baseUrl c.

(** The two cache slots are written together: both [null], or both set. *)
Definition cache_consistent (c : client) : Prop :=
  token c = None <-> tokenExpiresAt c = None.

(** A computation that calls no endpoint and writes no field. *)
Definition quiet {A : Type} (m : M A) : Prop :=
  forall w h,
    exists r h0,
      m w h = (r, h0, []) /\ self h0 = self h /\ (steps h <= steps h0)%nat.

(** A method body: some quiet preparation that either throws or hands a
    body over to the dispatcher for [endpoint]. *)
Definition dispatches (endpoint : string) (m : M value) : Prop :=
  forall w h,
    (exists e h0,
       m w h = (Abrupt e, h0, [])
       /\ self h0 = self h /\ (steps h <= steps h0)%nat)
    \/ (exists body h0,
          m w h = _makeRequest endpoint body w h0
          /\ self h0 = self h /\ (steps h <= steps h0)%nat).

(** What one dispatcher call on the client [c] may emit: at most one call
    of the token endpoint, then at most one call of the target endpoint,
    authorized by the token the client [c'] holds afterwards. *)
Definition dispatcher_trace (c : client) (endpoint : string) (c' : client)
    (out : list event) : Prop :=
  exists gets posts,
    out = (gets ++ posts)%list
    /\ (gets = [] \/ gets = [GET (token_url c) (basic_authorization c)])
    /\ (posts = []
        \/ exists body,
             posts = [POST {| base := baseUrl c; path := endpoint |} body
                        ("Bearer " ++ text_of (token c'))]).

(** A caller that awaits one dispatcher call after the other and carries
    on whatever each of them returns or throws. *)
Fixpoint session (calls : list (string * value)) (w : world) (h : heap)
  : heap * list event :=
  match calls with
  | [] => (h, [])
  | (endpoint, body) :: rest =>
      match run (_makeRequest endpoint body) w h with
      | (_, h1, out1) =>
          match session rest w h1 with
          | (h2, out2) => (h2, (out1 ++ out2)%list)
          end
      end
  end.

(** The methods that build their body from the fields of [params] (the
    others pass their argument on as it is), and the first field read. *)
Definition first_param (m : method) : option string :=
  match m with
  | Guarded op_stkPush => Some "TransactionType"
  | Guarded op_stkQuery => Some "CheckoutRequestID"
  | Guarded op_b2c => Some "CommandID"
  | Guarded op_transactionStatus => Some "TransactionID"
  | Guarded op_accountBalance => Some "IdentifierType"
  | Guarded op_reversal => Some "TransactionID"
  | Guarded op_taxRemittance => Some "Amount"
  | Guarded op_b2b => Some "CommandID"
  | Guarded op_b2cAccountTopUp => Some "Amount"
  | Open op_c2bRegister => Some "ResponseType"
  | Open op_c2bSimulate => Some "CommandID"
  | Open op_dynamicQR => Some "MerchantName"
  | Open op_billManagerOptIn => Some "email"
  | Open op_b2bExpressCheckout => Some "primaryShortCode"
  | Open op_createStandingOrder => Some "StandingOrderName"
  | Open _ => None
  end.

(** The credential check of a method passes. *)
Definition ready (m : method) (c : client) : bool :=
  match m with
  | Guarded op => negb (missing_credential op c)
  | Open _ => true
  end.

(** The fields of the body that carry the shortcode of the client. *)
Definition shortcode_fields (m : method) : list string :=
  match m with
  | Guarded op_stkPush => ["BusinessShortCode"; "PartyB"]
  | Guarded op_stkQuery => ["BusinessShortCode"]
  | Guarded op_reversal => ["ReceiverParty"]
  | Guarded _ => ["PartyA"]
  | Open op_c2bRegister => ["ShortCode"]
  | Open op_c2bSimulate => ["ShortCode"]
  | Open op_billManagerOptIn => ["shortcode"]
  | Open op_b2bExpressCheckout => ["receiverShortCode"]
  | Open op_createStandingOrder => ["BusinessShortCode"]
  | Open _ => []
  end.

(** The fields with a default: (field of the body, field of [params],
    default). *)
Definition defaulted_fields (m : method) : list (string * string * string) :=
  match m with
  | Guarded op_stkPush =>
      [("TransactionType", "TransactionType", "CustomerPayBillOnline")]
  | Guarded op_b2c => [("CommandID", "CommandID", "BusinessPayment")]
  | Guarded op_transactionStatus => [("IdentifierType", "IdentifierType", "4")]
  | Guarded op_accountBalance =>
      [("IdentifierType", "IdentifierType", "4");
       ("Remarks", "Remarks", "Balance Check")]
  | Guarded op_reversal =>
      [("RecieverIdentifierType", "RecieverIdentifierType", "11");
       ("Remarks", "Remarks", "Reversal")]
  | Guarded op_taxRemittance => [("Remarks", "Remarks", "Tax Payment")]
  | Guarded op_b2b =>
      [("CommandID", "CommandID", "BusinessPayBill");
       ("Remarks", "Remarks", "Business Payment")]
  | Guarded op_b2cAccountTopUp => [("Remarks", "Remarks", "B2C Top Up")]
  | Open op_c2bRegister => [("ResponseType", "ResponseType", "Completed")]
  | Open op_c2bSimulate => [("CommandID", "CommandID", "CustomerPayBillOnline")]
  | Open op_billManagerOptIn => [("sendReminders", "sendReminders", "1")]
  | Open op_createStandingOrder =>
      [("TransactionType", "TransactionType", "Standing Order Customer Pay Bill");
       ("TransactionDesc", "TransactionDesc", "Standing Order")]
  | _ => []
  end.

(** The codes whose clause assigns a fixed text. *)
Definition fixed_text_codes : list string :=
  [ "1"; "1001"; "1019"; "1025"; "1032"; "1037"; "2001"; "15"; "17"; "18";
    "20"; "21"; "26"; "4102"; "4104"; "4201"; "4203" ].

Definition is_digit (c : ascii) : bool :=
  let n := N_of_ascii c in ((48 <=? n) && (n <=? 57))%N.

Fixpoint all_digits (s : string) : bool :=
  match s with
  | EmptyString => true
  | String c rest => is_digit c && all_digits rest
  end.

(** The target calls of a list of dispatcher calls (endpoint, body), all
    authorized by the token [tok]. *)
Definition authorized_posts (host : slot) (tok : string)
    (calls : list (string * value)) : list event :=
  map (fun call =>
         POST {| base := host; path := fst call |} (snd call)
           ("Bearer " ++ tok))
      calls.




(** The calendars of one date: the fields that [timestamp_of] reads. *)
Definition same_calendar (d d' : calendar) : Prop :=
  getFullYear d = getFullYear d' /\ getMonth d = getMonth d'
  /\ getDate d = getDate d' /\ getHours d = getHours d'
  /\ getMinutes d = getMinutes d' /\ getSeconds d = getSeconds d'.

End Vocabulary.

(** ** Facts about the JavaScript layer *)

Module JSFacts.
Import JS.

Lemma truthy_string_iff (s : string) : truthy_string s = true <-> s <> "".
Proof.
  unfold truthy_string.
  destruct (String.eqb_spec s ""); simpl; split; intro H; congruence.
Qed.

Lemma truthy_field_iff (f : option string) :
  truthy_field f = true <-> exists s, f = Some s /\ s <> "".
Proof.
  destruct f as [s|]; simpl.
  - rewrite truthy_string_iff. split.
    + intro H. exists s. auto.
    + intros [s' [E H]]. inversion E. subst. assumption.
  - split; [discriminate | intros [s [E _]]; discriminate].
Qed.

(** [String.prefix p s] holds exactly when [s] starts with [p]. *)
Lemma prefix_iff (p : string) :
  forall s, String.prefix p s = true <-> exists rest, s = p ++ rest.
Proof.
  induction p as [|a p IH]; intros s.
  - split; [intros _; exists s; reflexivity | intros _; destruct s; reflexivity].
  - destruct s as [|b s]; simpl.
    + split; [discriminate | intros [rest E]; discriminate].
    + destruct (ascii_dec a b) as [->|N].
      * rewrite IH. split; intros [rest E]; exists rest.
        -- now rewrite E.
        -- now inversion E.
      * split; [discriminate | intros [rest E]; congruence].
Qed.

Lemma string_includes_step (hay needle : string) :
  string_includes hay needle
  = String.prefix needle hay
    || match hay with
       | EmptyString => false
       | String _ rest => string_includes rest needle
       end.
Proof.
  destruct hay; cbn [string_includes];
    destruct (String.prefix needle _); reflexivity.
Qed.

(** [string_includes] is substring membership. *)
Lemma string_includes_iff (needle : string) :
  forall hay,
    string_includes hay needle = true
    <-> exists before after, hay = before ++ needle ++ after.
Proof.
  induction hay as [|c hay IH];
    rewrite string_includes_step, orb_true_iff, prefix_iff.
  - split.
    + intros [[rest E]|F]; [exists "", rest; exact E | discriminate].
    + intros [before [after E]]. left.
      destruct before; [exists after; exact E | discriminate].
  - rewrite IH. split.
    + intros [[rest E]|[before [after E]]].
      * exists "", rest. exact E.
      * exists (String c before), after. simpl. now rewrite E.
    + intros [before [after E]].
      destruct before as [|c' before]; simpl in E.
      * left. exists after. exact E.
      * right. exists before, after. congruence.
Qed.

Lemma get_defined (v : value) (k : string) :
  v <> JUndefined -> v <> JNull -> exists x, get v k = Normal x.
Proof.
  intros U N. destruct v; try congruence; simpl; eauto.
  destruct (lookup k fields); eauto.
Qed.

Lemma get_truthy (v : value) (k : string) :
  truthy v = true -> exists x, get v k = Normal x.
Proof.
  intro T. apply get_defined; intro E; subst; discriminate.
Qed.

Lemma get_normal_defined (v x : value) (k : string) :
  get v k = Normal x -> v <> JUndefined /\ v <> JNull.
Proof.
  destruct v; simpl; intro H; split; congruence.
Qed.

Lemma JSON_stringify_string (v : value) :
  v <> JUndefined -> exists s, JSON_stringify v = JStr s.
Proof.
  destruct v; simpl; intro H; try congruence; eauto.
Qed.

End JSFacts.

(** ** Facts about the error normalizer *)

Module NormalizerFacts.
Import JS Safaricom Observed JSFacts.

Lemma get_field (body : value) (k : string) :
  ~ nullish body -> get body k = Normal (field body k).
Proof.
  unfold nullish. intro D.
  destruct body; simpl; try reflexivity; try (exfalso; auto; fail).
  destruct (lookup k fields); reflexivity.
Qed.

Lemma truthy_not_nullish (v : value) : truthy v = true -> ~ nullish v.
Proof. intros T [E|E]; subst; discriminate. Qed.

Lemma get_nested (body : value) (outer inner : string) :
  (if truthy (field body outer) then get (field body outer) inner
   else Normal JNull)
  = Normal (nested body outer inner).
Proof.
  unfold nested. destruct (truthy (field body outer)) eqn:T.
  - apply get_field, truthy_not_nullish, T.
  - reflexivity.
Qed.

(** On a body that is neither [null] nor [undefined] the two extractions
    return, and they probe the fields in the order of the source. *)
Section Probing.

Variable body : value.
Hypothesis body_defined : ~ nullish body.

Let read (k : string) : get body k = Normal (field body k) :=
  get_field body k body_defined.


Lemma errorMessage_priority :
  errorMessage_of body
  = Normal (first_truthy [field body "errorMessage";
                          nested body "fault" "faultstring";
                          field body "ResultDesc"]
              (JSON_stringify body)).
Proof.
  unfold errorMessage_of.
  rewrite (read "errorMessage"). cbn [bind_completion first_truthy].
  unfold or_else. destruct (truthy (field body "errorMessage")); [reflexivity|].
  rewrite (read "fault"). cbn [bind_completion].
  rewrite get_nested. cbn [bind_completion].
  destruct (truthy (nested body "fault" "faultstring")); [reflexivity|].
  rewrite (read "ResultDesc"). cbn [bind_completion].
  destruct (truthy (field body "ResultDesc")); reflexivity.
Qed.

End Probing.

(** On [null] and [undefined] the very first probe throws. *)
Lemma errorCode_of_nullish (body : value) :
  nullish body ->
  errorCode_of body = Abrupt (TypeError_nullish_read "errorCode").
Proof. intros [->| ->]; reflexivity. Qed.

Lemma errorCode_of_normal (body code : value) :
  errorCode_of body = Normal code -> ~ nullish body.
Proof.
  intros H N. rewrite (errorCode_of_nullish body N) in H. discriminate.
Qed.

Lemma first_truthy_cases (candidates : list value) (last : value) :
  truthy (first_truthy candidates last) = true
  \/ first_truthy candidates last = last.
Proof.
  induction candidates as [|c rest IH]; simpl; [now right|].
  destruct (truthy c) eqn:T; [now left | exact IH].
Qed.

(** The extracted message is never [null] or [undefined], and it is a
    string whenever the three message fields are strings or absent. *)
Lemma errorMessage_not_nullish (body message : value) :
  errorMessage_of body = Normal message -> ~ nullish message.
Proof.
  intro H.
  assert (~ nullish body) as D.
  { intros [E|E]; subst; discriminate. }
  rewrite (errorMessage_priority body D) in H.
  replace message
    with (first_truthy
            [field body "errorMessage"; nested body "fault" "faultstring";
             field body "ResultDesc"] (JSON_stringify body))
    by congruence.
  destruct (first_truthy_cases
              [field body "errorMessage"; nested body "fault" "faultstring";
               field body "ResultDesc"] (JSON_stringify body)) as [T| ->].
  - apply truthy_not_nullish, T.
  - destruct (JSON_stringify_string body) as [s ->].
    + intro E. apply D. now left.
    + intros [E|E]; discriminate.
Qed.

(** *** The [switch] *)

Lemma select_first (table before after : list (string * clause))
    (label : string) (c : clause) :
  table = (before ++ (label, c) :: after)%list ->
  (forall l c', In (l, c') before -> l <> label) ->
  select label table = c.
Proof.
  intros -> Fresh. induction before as [|[l c'] before IH]; simpl.
  - now rewrite String.eqb_refl.
  - destruct (String.eqb_spec label l) as [E|_].
    + exfalso. apply (Fresh l c'); [now left | congruence].
    + apply IH. intros l0 c0 I. apply (Fresh l0 c0). now right.
Qed.



Ltac case_chain :=
  repeat match goal with
         | |- context [if (?k =? ?l)%string then _ else _] =>
             destruct (k =? l)%string
         end.

(** The two later clauses labelled ["2001"] are never entered. *)
Lemma select_never_shadowed (key : string) :
  select key cases <> InvalidInitiatorInformation
  /\ select key cases <> InvalidInitiatorInformationB2C.
Proof.
  unfold cases. cbn [select]. split; case_chain; discriminate.
Qed.

(** *** The phrase chains *)

Lemma first_phrase_string (s : string) (chain : list (string * string))
    (otherwise : string) :
  first_phrase (JStr s) chain otherwise
  = Normal match first_occurring s chain with
           | Some text => text
           | None => otherwise
           end.
Proof.
  induction chain as [|[phrase text] chain IH]; simpl; [reflexivity|].
  destruct (string_includes s phrase); [reflexivity | exact IH].
Qed.

(** First match wins: the text chosen belongs to the first phrase of the
    chain that occurs in the message. *)
Lemma first_occurring_some (s : string) (chain : list (string * string))
    (text : string) :
  first_occurring s chain = Some text <->
  exists before phrase after,
    chain = (before ++ (phrase, text) :: after)%list
    /\ string_includes s phrase = true
    /\ forall p t, In (p, t) before -> string_includes s p = false.
Proof.
  induction chain as [|[phrase0 text0] chain IH]; simpl.
  - split; [discriminate|].
    intros [before [phrase [after [E _]]]]. destruct before; discriminate.
  - destruct (string_includes s phrase0) eqn:Hit.
    + split.
      * intro E. injection E as <-. exists [], phrase0, chain.
        repeat split; [exact Hit | intros p t []].
      * intros [before [phrase [after [E [Hit' Miss]]]]].
        destruct before as [|[p t] before]; simpl in E.
        -- congruence.
        -- injection E as E1 E2 _. subst p t.
           rewrite (Miss phrase0 text0) in Hit by now left. discriminate.
    + rewrite IH. split.
      * intros [before [phrase [after [E [Hit' Miss]]]]].
        exists ((phrase0, text0) :: before), phrase, after.
        repeat split; [simpl; now rewrite E | exact Hit' |].
        intros p t [I|I]; [congruence | eapply Miss; exact I].
      * intros [before [phrase [after [E [Hit' Miss]]]]].
        destruct before as [|[p t] before]; simpl in E.
        -- congruence.
        -- injection E as E1 E2 E. subst p t. exists before, phrase, after.
           repeat split; [exact E | exact Hit' |].
           intros p' t' I. apply (Miss p' t'). now right.
Qed.

Lemma first_occurring_none (s : string) (chain : list (string * string)) :
  first_occurring s chain = None <->
  forall p t, In (p, t) chain -> string_includes s p = false.
Proof.
  induction chain as [|[phrase0 text0] chain IH]; simpl.
  - split; [intros _ p t [] | reflexivity].
  - destruct (string_includes s phrase0) eqn:Hit.
    + split; [discriminate|].
      intro Miss. rewrite (Miss phrase0 text0) in Hit by now left.
      discriminate.
    + rewrite IH. split.
      * intros Miss p t [I|I]; [congruence | eapply Miss; exact I].
      * intros Miss p t I. apply (Miss p t). now right.
Qed.

(** Whatever the message is, a chain that returns yields one of its texts
    or the fallback. *)
Lemma first_phrase_range (m : value) (chain : list (string * string))
    (otherwise u : string) :
  first_phrase m chain otherwise = Normal u ->
  u = otherwise \/ In u (map snd chain).
Proof.
  induction chain as [|[phrase text] chain IH]; simpl.
  - intro H. left. congruence.
  - destruct (includes m phrase) as [[|]|e]; simpl.
    + intro H. right. left. congruence.
    + intro H. destruct (IH H) as [E|I]; [now left | right; now right].
    + discriminate.
Qed.

(** *** The normalizer as a whole *)


Lemma handleError_nullish_body (status : Z) (body : value) (req : bool)
    (msg : string) :
  nullish body ->
  _handleError {| response := Some {| status := status; data := body |};
                  request := req; message := msg |}
  = Abrupt (TypeError_nullish_read "errorCode").
Proof. intros [->| ->]; reflexivity. Qed.

Lemma handleError_no_response (error : failure) :
  response error = None -> request error = true ->
  _handleError error = Normal (Error no_response_message).
Proof. intros R Q. unfold _handleError. now rewrite R, Q. Qed.

Lemma handleError_setup (error : failure) :
  response error = None -> request error = false ->
  _handleError error = Normal (Error (setup_message error)).
Proof. intros R Q. unfold _handleError. now rewrite R, Q. Qed.


Ltac differs :=
  unfold Invalid_Initiator_Information, C2B_otherwise, BillManager_otherwise,
    default_message, no_response_message, setup_message;
  cbn [String.append]; discriminate.

Lemma userMessage_never_initiator (c : clause) (status : Z) (m : value)
    (u : string) :
  c <> InvalidInitiatorInformation -> c <> InvalidInitiatorInformationB2C ->
  userMessage_of c status m = Normal u ->
  u <> Invalid_Initiator_Information.
Proof.
  intros N1 N2.
  destruct c; try congruence; cbn [userMessage_of]; intro H;
    try (injection H as <-; differs).
  - destruct (first_phrase_range _ _ _ _ H) as [->|I]; [differs|].
    cbn in I. decompose [or] I; try contradiction; subst u; differs.
  - destruct (first_phrase_range _ _ _ _ H) as [->|I]; [differs|].
    cbn in I. decompose [or] I; try contradiction; subst u; differs.
Qed.

(** No input makes the normalizer return the message of the shadowed
    clauses. *)
Lemma handleError_never_initiator (error : failure) (e : thrown) :
  _handleError error = Normal e -> e <> Error Invalid_Initiator_Information.
Proof.
  unfold _handleError. destruct (response error) as [r|].
  - destruct (errorCode_of (data r)) as [code|]; [|discriminate].
    destruct (errorMessage_of (data r)) as [m|]; [|discriminate].
    cbn [bind_completion].
    destruct (userMessage_of _ (status r) m) as [u|] eqn:U; [|discriminate].
    cbn [bind_completion]. intro H. injection H as <-.
    intro E. injection E as E. revert E.
    destruct (select_never_shadowed (to_String code)) as [N1 N2].
    exact (userMessage_never_initiator _ _ _ _ N1 N2 U).
  - destruct (request error); intro H; injection H as <-; intro E;
      injection E as E; revert E; differs.
Qed.




End NormalizerFacts.

(** ** Facts about the token cache and the dispatcher *)

Module PipelineFacts.
Import JS Safaricom Observed JSFacts NormalizerFacts.
Local Open Scope js_scope.

(** The guard of [_getAuthToken], read off the heap and the clock. *)
Lemma cached_token_valid_dec (c : client) (now : Z) :
  {cached_token_valid c now} + {~ cached_token_valid c now}.
Proof.
  unfold cached_token_valid.
  destruct (token c) as [t|].
  2: { right. intros [t [e [E _]]]. discriminate. }
  destruct (string_dec t "") as [->|Nt].
  { right. intros [t [e [E [N _]]]]. congruence. }
  destruct (tokenExpiresAt c) as [e|].
  2: { right. intros [t' [e [_ [_ [E _]]]]]. discriminate. }
  destruct (Z.eq_dec e 0) as [->|Ne].
  { right. intros [t' [e [_ [_ [E [N _]]]]]]. congruence. }
  destruct (Z_lt_dec now e) as [L|G].
  - left. exists t, e. auto.
  - right. intros [t' [e' [_ [_ [E [_ L]]]]]]. injection E as <-. contradiction.
Defined.

#[local] Arguments Base64.base64 : simpl never.
#[local] Arguments _handleError : simpl never.
#[local] Arguments String.append : simpl never.
#[local] Arguments Z.add : simpl never.
#[local] Arguments Z.mul : simpl never.
#[local] Arguments Z.sub : simpl never.

Lemma guard_passes (c : client) (now : Z) :
  cached_token_valid c now ->
  exists t expiry,
    token c = Some t /\ tokenExpiresAt c = Some expiry
    /\ truthy_string t = true /\ (expiry =? 0) = false
    /\ (expiry >? now) = true.
Proof.
  intros [t [e [Tk [Nt [Ex [Ne L]]]]]]. exists t, e.
  repeat split; try assumption.
  - now apply truthy_string_iff.
  - now apply Z.eqb_neq.
  - now apply Z.gtb_lt.
Qed.

Lemma guard_fails (c : client) (now : Z) :
  ~ cached_token_valid c now ->
  truthy_field (token c) = false
  \/ tokenExpiresAt c = None
  \/ tokenExpiresAt c = Some 0
  \/ exists expiry, tokenExpiresAt c = Some expiry /\ (expiry >? now) = false.
Proof.
  intro Stale.
  destruct (truthy_field (token c)) eqn:T; [|now left]. right.
  destruct (tokenExpiresAt c) as [e|] eqn:Ex; [|now left]. right.
  destruct (Z.eq_dec e 0) as [->|Ne]; [now left|]. right.
  exists e. split; [reflexivity|].
  destruct (e >? now) eqn:G; [|reflexivity].
  exfalso. apply Stale.
  apply truthy_field_iff in T. destruct T as [t [Tk Nt]].
  exists t, e. repeat split; try assumption. now apply Z.gtb_lt.
Qed.

Lemma getAuthToken_cached (w : world) (h : heap) (t : string) :
  cached_token_valid (self h) (clock w (steps h)) ->
  token (self h) = Some t ->
  run _getAuthToken w h = (Normal t, step h, []).
Proof.
  intros V Tk.
  destruct (guard_passes _ _ V) as [t' [e [Tk' [Ex [Nt [Ne G]]]]]].
  assert (t' = t) as -> by congruence.
  unfold run, _getAuthToken, bind, read_this.
  rewrite Tk, Ex. cbn [truthy_field]. rewrite Nt, Ne.
  cbn. rewrite G. reflexivity.
Qed.

Ltac settle_reply :=
  cbn;
  match goal with
  | |- context [get_reply ?w ?n ?u ?a] =>
      destruct (get_reply w n u a) as [payload|error];
      [reflexivity | destruct (_handleError error); reflexivity]
  end.

Lemma getAuthToken_fetch (w : world) (h : heap) :
  ~ cached_token_valid (self h) (clock w (steps h)) ->
  run _getAuthToken w h
  = let url := token_url (self h) in
    let auth := basic_authorization (self h) in
    match get_reply w (fetch_step h) url auth with
    | Resolved payload =>
        (Normal (access_token payload), refreshed w h payload, [GET url auth])
    | Rejected error =>
        (match _handleError error with
         | Normal e => Abrupt e
         | Abrupt e => Abrupt e
         end,
         {| self := self h; steps := S (fetch_step h) |}, [GET url auth])
    end.
Proof.
  intro Stale.
  unfold run, _getAuthToken, bind, read_this, refreshed, fetch_step,
    consults_clock, token_url, basic_authorization, throw_normalized.
  destruct (guard_fails _ _ Stale) as [T|[Ex|[Ex|[e [Ex G]]]]].
  - rewrite T. settle_reply.
  - rewrite Ex. destruct (truthy_field (token (self h))); settle_reply.
  - rewrite Ex. destruct (truthy_field (token (self h))); settle_reply.
  - rewrite Ex.
    destruct (truthy_field (token (self h))); [|settle_reply].
    destruct (e =? 0); [settle_reply|].
    cbn. rewrite G. settle_reply.
Qed.

Lemma propagated_eq (error : failure) :
  match _handleError error with
  | Normal e => Abrupt e
  | Abrupt e => Abrupt e
  end = @Abrupt string (propagated error).
Proof. unfold propagated. destruct (_handleError error); reflexivity. Qed.

Lemma makeRequest_unfold (w : world) (h : heap) (endpoint : string)
    (body : value) :
  run (_makeRequest endpoint body) w h
  = match run _getAuthToken w h with
    | (Normal tok, h1, out) =>
        let url := {| base := baseUrl (self h1); path := endpoint |} in
        let auth := "Bearer " ++ tok in
        (match post_reply w (steps h1) url body auth with
         | Resolved payload => Normal payload
         | Rejected error => Abrupt (propagated error)
         end, step h1, (out ++ [POST url body auth])%list)
    | (Abrupt e, h1, out) => (Abrupt e, h1, out)
    end.
Proof.
  unfold run, _makeRequest, bind.
  destruct (_getAuthToken w h) as [[[tok|e] h1] out]; [|reflexivity].
  cbn. unfold throw_normalized, propagated.
  destruct (post_reply w (steps h1) _ body _) as [payload|error];
    [reflexivity|].
  destruct (_handleError error); reflexivity.
Qed.

(** The cache slots are the only fields [_getAuthToken] may write. *)
Lemma getAuthToken_frame (w : world) (h h' : heap) (r : completion string)
    (out : list event) :
  run _getAuthToken w h = (r, h', out) ->
  consumerKey (self h') = consumerKey (self h)
  /\ consumerSecret (self h') = consumerSecret (self h)
  /\ shortCode (self h') = shortCode (self h)
  /\ baseUrl (self h') = baseUrl (self h)
  /\ (steps h < steps h')%nat.
Proof.
  destruct (cached_token_valid_dec (self h) (clock w (steps h))) as [V|S].
  - destruct V as [t [e [Tk Rest]]].
    rewrite (getAuthToken_cached w h t); [|exists t, e; auto|exact Tk].
    intro E. injection E as _ <- _. cbn. repeat split; lia.
  - rewrite (getAuthToken_fetch w h S). cbv zeta.
    assert (steps h <= fetch_step h)%nat as Le.
    { unfold fetch_step. destruct (consults_clock (self h)); lia. }
    destruct (get_reply w (fetch_step h) _ _) as [payload|error];
      intro E; injection E as _ <- _; cbn; repeat split; lia.
Qed.

(** What a call of [_getAuthToken] emits: nothing when the cached token is
    valid, one call of the token endpoint otherwise, and never a call of a
    target endpoint. *)
Lemma getAuthToken_emits (w : world) (h h' : heap) (r : completion string)
    (out : list event) :
  run _getAuthToken w h = (r, h', out) ->
  (cached_token_valid (self h) (clock w (steps h)) -> out = [])
  /\ (~ cached_token_valid (self h) (clock w (steps h)) ->
      out = [GET (token_url (self h)) (basic_authorization (self h))]).
Proof.
  intro R. split.
  - intro V. pose proof V as [t [e [Tk Rest]]].
    rewrite (getAuthToken_cached w h t V Tk) in R. congruence.
  - intro S. rewrite (getAuthToken_fetch w h S) in R. cbv zeta in R.
    destruct (get_reply w (fetch_step h) _ _); congruence.
Qed.


Lemma target_calls_app (a b : list event) :
  target_endpoint_calls (a ++ b)
  = (target_endpoint_calls a + target_endpoint_calls b)%nat.
Proof.
  unfold target_endpoint_calls. now rewrite filter_app, length_app.
Qed.

(** A dispatcher call whose token step returns makes exactly one call of
    its target endpoint, after the calls of the token step. *)
Lemma makeRequest_emits (w : world) (h h1 : heap) (endpoint : string)
    (body : value) (tok : string) (out : list event) :
  run _getAuthToken w h = (Normal tok, h1, out) ->
  exists r,
    run (_makeRequest endpoint body) w h
    = (r, step h1,
       (out ++ [POST {| base := baseUrl (self h); path := endpoint |} body
                  ("Bearer " ++ tok)])%list).
Proof.
  intro R. rewrite makeRequest_unfold, R. cbv zeta.
  destruct (getAuthToken_frame w h h1 _ _ R) as [_ [_ [_ [B _]]]].
  rewrite B. eexists. reflexivity.
Qed.

(** *** Stepping through the bodies of the operations *)

Lemma bind_read_this {A} (k : client -> M A) (w : world) (h : heap) :
  run (this <- read_this ;; k this) w h = run (k (self h)) w h.
Proof.
  unfold run, bind, read_this. destruct (k (self h) w h) as [[r h2] out].
  reflexivity.
Qed.

Lemma bind_getTimestamp {A} (k : string -> M A) (w : world) (h : heap) :
  run (timestamp <- _getTimestamp ;; k timestamp) w h
  = run (k (timestamp_of (local_time w (steps h)))) w (step h).
Proof.
  unfold run, bind, _getTimestamp, new_Date, ret, bind.
  destruct (k _ w (step h)) as [[r h2] out]. reflexivity.
Qed.

Lemma bind_param {A} (params : value) (name : string) (k : value -> M A)
    (w : world) (h : heap) :
  ~ nullish params ->
  run (x <- param params name ;; k x) w h = run (k (field params name)) w h.
Proof.
  intro D. unfold run, bind, param. rewrite (get_field params name D).
  cbn. destruct (k _ w h) as [[r h2] out]. reflexivity.
Qed.

Lemma bind_param_or {A} (params : value) (name fallback : string)
    (k : value -> M A) (w : world) (h : heap) :
  ~ nullish params ->
  run (x <- param_or params name fallback ;; k x) w h
  = run (k (if truthy (field params name) then field params name
            else JStr fallback)) w h.
Proof.
  intro D. unfold run, bind, param_or. rewrite (get_field params name D).
  cbn. unfold or_else.
  destruct (truthy (field params name)); cbn;
    destruct (k _ w h) as [[r h2] out]; reflexivity.
Qed.

Lemma invoke_missing (op : operation) (params : value) (w : world)
    (h : heap) :
  missing_credential op (self h) = true ->
  run (invoke op params) w h = (Abrupt (configuration_error op), h, []).
Proof.
  unfold missing_credential.
  destruct op; cbn [requires_passkey invoke]; intro Missing;
    match goal with
    | |- run (?f params) w h = _ => unfold f
    end;
    rewrite bind_read_this, Missing; reflexivity.
Qed.

(** *** The timestamp *)

Lemma all_from_sound (check : Z -> bool) (count : nat) :
  forall from,
    all_from from count check = true ->
    forall n, from <= n < from + Z.of_nat count -> check n = true.
Proof.
  induction count as [|count IH]; intros from H n B; [lia|].
  cbn [all_from] in H. apply andb_true_iff in H. destruct H as [Here Rest].
  destruct (Z.eq_dec n from) as [->|Ne]; [exact Here|].
  apply (IH (from + 1) Rest). lia.
Qed.

Lemma decimal_two_digits (n : Z) :
  0 <= n <= 99 -> padStart 2 (decimal n) = two_digits n.
Proof.
  intro B.
  apply String.eqb_eq.
  apply (all_from_sound
           (fun n => (padStart 2 (decimal n) =? two_digits n)%string)
           (Z.to_nat 100) 0);
    [vm_compute; reflexivity | rewrite Z2Nat.id; lia].
Qed.

Lemma decimal_four_digits (n : Z) :
  1000 <= n <= 9999 -> decimal n = four_digits n.
Proof.
  intro B.
  apply String.eqb_eq.
  apply (all_from_sound
           (fun n => (decimal n =? four_digits n)%string)
           (Z.to_nat 9000) 1000);
    [vm_compute; reflexivity | rewrite Z2Nat.id; lia].
Qed.

Lemma timestamp_format (date : calendar) :
  four_digit_year_date date -> timestamp_of date = YYYYMMDDHHMMSS date.
Proof.
  intros [Y [Mo [D [H [Mi S]]]]].
  unfold timestamp_of, YYYYMMDDHHMMSS.
  rewrite (decimal_four_digits _ Y).
  rewrite !decimal_two_digits by lia. reflexivity.
Qed.

End PipelineFacts.

(** ** The token cache *)

Module TokenCache.
Import JS Safaricom Observed JSFacts NormalizerFacts PipelineFacts.

(** Whatever the failure of the fetch, [_getAuthToken] completes abruptly
    and writes neither cache slot. *)
Lemma failed_fetch_keeps_cache (w : world) (h : heap) (error : failure) :
  ~ cached_token_valid (self h) (clock w (steps h)) ->
  get_reply w (fetch_step h) (token_url (self h))
    (basic_authorization (self h)) = Rejected error ->
  exists h',
    run _getAuthToken w h
    = (Abrupt (propagated error), h',
       [GET (token_url (self h)) (basic_authorization (self h))])
    /\ self h' = self h.
Proof.
  intros Stale Reply. rewrite (getAuthToken_fetch w h Stale). cbv zeta.
  rewrite Reply, propagated_eq. eexists. split; reflexivity.
Qed.

Ltac valid_here :=
  split; [reflexivity|]; split; [discriminate|];
  split; [reflexivity|]; split; [discriminate|]; reflexivity.

(** Two dispatcher calls in a row, the first on a client whose cache holds
    a valid token: no call of the token endpoint at all. *)
Lemma two_calls_on_valid_cache :
  exists r1 h1 out1 r2 h2 out2,
    cached_token_valid (self Mock.warm) (clock Mock.mocked (steps Mock.warm))
    /\ run (_makeRequest "/mpesa/c2b/v1/registerurl" Mock.success)
         Mock.mocked Mock.warm = (r1, h1, out1)
    /\ cached_token_valid (self h1) (clock Mock.mocked (steps h1))
    /\ run (_makeRequest "/mpesa/c2b/v1/simulate" Mock.success)
         Mock.mocked h1 = (r2, h2, out2)
    /\ token_endpoint_calls (out1 ++ out2) = 0%nat
    /\ target_endpoint_calls (out1 ++ out2) = 2%nat.
Proof.
  do 6 eexists.
  split; [|split; [vm_compute; reflexivity|]].
  - exists "api_token", (1672531200000 + 3539000). valid_here.
  - split; [|split; [vm_compute; reflexivity|split; reflexivity]].
    exists "api_token", (1672531200000 + 3539000). valid_here.
Qed.

Lemma makeRequest_on_valid (w : world) (h : heap) (endpoint : string)
    (body : value) :
  cached_token_valid (self h) (clock w (steps h)) ->
  exists r t,
    token (self h) = Some t
    /\ run (_makeRequest endpoint body) w h
       = (r, step (step h),
          [POST {| base := baseUrl (self h); path := endpoint |} body
             ("Bearer " ++ t)]).
Proof.
  intro V. pose proof V as [t [e [Tk _]]].
  rewrite makeRequest_unfold, (getAuthToken_cached w h t V Tk). cbv zeta.
  eexists. exists t. split; [exact Tk | reflexivity].
Qed.

Lemma makeRequest_after_fetch (w : world) (h : heap) (endpoint : string)
    (body : value) (payload : token_data) :
  ~ cached_token_valid (self h) (clock w (steps h)) ->
  get_reply w (fetch_step h) (token_url (self h))
    (basic_authorization (self h)) = Resolved payload ->
  exists r,
    run (_makeRequest endpoint body) w h
    = (r, step (refreshed w h payload),
       [GET (token_url (self h)) (basic_authorization (self h));
        POST {| base := baseUrl (self h); path := endpoint |} body
          ("Bearer " ++ access_token payload)]).
Proof.
  intros Stale Reply.
  rewrite makeRequest_unfold, (getAuthToken_fetch w h Stale). cbv zeta.
  rewrite Reply. cbv zeta. eexists. reflexivity.
Qed.

(** C1, read as stated: "two consecutive dispatcher calls while the cached
    token is still valid trigger exactly one token-endpoint call".  It
    fails on the client of the test suite holding a token that is valid for
    the next hour ([Mock.warm]): both calls reuse the token, and the token
    endpoint is not called at all. *)
Lemma reuse_as_stated_counterexample :
  ~ (forall (w : world) (h h1 h2 : heap) (e1 e2 : string) (b1 b2 : value)
            (r1 r2 : completion value) (out1 out2 : list event),
       cached_token_valid (self h) (clock w (steps h)) ->
       run (_makeRequest e1 b1) w h = (r1, h1, out1) ->
       cached_token_valid (self h1) (clock w (steps h1)) ->
       run (_makeRequest e2 b2) w h1 = (r2, h2, out2) ->
       token_endpoint_calls (out1 ++ out2) = 1%nat
       /\ target_endpoint_calls (out1 ++ out2) = 2%nat).
Proof.
  intro Stated.
  destruct two_calls_on_valid_cache
    as [r1 [h1 [out1 [r2 [h2 [out2 [V [R1 [V1 [R2 [Calls _]]]]]]]]]]].
  destruct (Stated _ _ _ _ _ _ _ _ _ _ _ _ V R1 V1 R2) as [One _].
  rewrite Calls in One. discriminate.
Qed.

(** C1, amended.  For every call of [_getAuthToken]: when the cache holds
    a token (a non-empty string, with an expiry that is not zero) and the
    current instant is strictly before the cached expiry, the cached token
    is returned and no call is made; otherwise exactly one call of the
    token endpoint is made and, when it succeeds, the token is cached with
    the expiry [now + (expires_in - 60) * 1000] milliseconds, [now] being
    the clock read after the answer.  Consequently two consecutive
    dispatcher calls, the second made while the cached token is valid,
    call their target endpoints twice and the token endpoint not at all
    when the token was already valid at the first call, and exactly once
    when the first call found no valid token and its fetch succeeded. *)
Theorem cached_or_fetched_once (w : world) (h : heap) :
  (cached_token_valid (self h) (clock w (steps h)) ->
   exists t,
     token (self h) = Some t
     /\ run _getAuthToken w h = (Normal t, step h, []))
  /\ (~ cached_token_valid (self h) (clock w (steps h)) ->
      exists r h',
        run _getAuthToken w h
        = (r, h', [GET (token_url (self h)) (basic_authorization (self h))])
        /\ forall payload,
             get_reply w (fetch_step h) (token_url (self h))
               (basic_authorization (self h)) = Resolved payload ->
             r = Normal (access_token payload)
             /\ token (self h') = Some (access_token payload)
             /\ tokenExpiresAt (self h')
                = Some (clock w (S (fetch_step h))
                        + (expires_in payload - 60) * 1000))
  /\ (forall (e1 e2 : string) (b1 b2 : value) (r1 r2 : completion value)
             (h1 h2 : heap) (out1 out2 : list event),
        run (_makeRequest e1 b1) w h = (r1, h1, out1) ->
        run (_makeRequest e2 b2) w h1 = (r2, h2, out2) ->
        cached_token_valid (self h1) (clock w (steps h1)) ->
        (cached_token_valid (self h) (clock w (steps h)) ->
         token_endpoint_calls (out1 ++ out2) = 0%nat
         /\ target_endpoint_calls (out1 ++ out2) = 2%nat)
        /\ (forall payload,
              ~ cached_token_valid (self h) (clock w (steps h)) ->
              get_reply w (fetch_step h) (token_url (self h))
                (basic_authorization (self h)) = Resolved payload ->
              token_endpoint_calls (out1 ++ out2) = 1%nat
              /\ target_endpoint_calls (out1 ++ out2) = 2%nat)).
Proof.
  split; [|split].
  - intro V. pose proof V as [t [e [Tk _]]]. exists t.
    split; [exact Tk | exact (getAuthToken_cached w h t V Tk)].
  - intro Stale. rewrite (getAuthToken_fetch w h Stale). cbv zeta.
    destruct (get_reply w (fetch_step h) _ _) as [payload|error].
    + do 2 eexists. split; [reflexivity|].
      intros p E. injection E as <-. repeat split.
    + do 2 eexists. split; [reflexivity|]. intros p E. discriminate.
  - intros e1 e2 b1 b2 r1 r2 h1 h2 out1 out2 R1 R2 V1.
    destruct (makeRequest_on_valid w h1 e2 b2 V1) as [r2' [t2 [_ Q2]]].
    rewrite Q2 in R2. injection R2 as _ _ <-.
    split.
    + intro V.
      destruct (makeRequest_on_valid w h e1 b1 V) as [r1' [t1 [_ Q1]]].
      rewrite Q1 in R1. injection R1 as _ _ <-. split; reflexivity.
    + intros payload Stale Reply.
      destruct (makeRequest_after_fetch w h e1 b1 payload Stale Reply)
        as [r1' Q1].
      rewrite Q1 in R1. injection R1 as _ _ <-. split; reflexivity.
Qed.

(** The three parts at work on the client of the test suite: a token
    valid for the next hour is returned as it is; a client without token
    fetches one and caches it for 3599 - 60 seconds; two calls in a row on
    that client call the token endpoint once. *)
Lemma cached_or_fetched_once_witness :
  (exists t,
     token (self Mock.warm) = Some t
     /\ run _getAuthToken Mock.mocked Mock.warm
        = (Normal t, step Mock.warm, []))
  /\ (exists r h',
        run _getAuthToken Mock.mocked Mock.fresh
        = (r, h', [GET (token_url Mock.safaricom)
                     (basic_authorization Mock.safaricom)])
        /\ r = Normal "api_token"
        /\ tokenExpiresAt (self h') = Some (1672531200001 + 3539 * 1000))
  /\ (forall r1 h1 out1 r2 h2 out2,
        run (_makeRequest "/mpesa/c2b/v1/registerurl" Mock.success)
          Mock.mocked Mock.fresh = (r1, h1, out1) ->
        run (_makeRequest "/mpesa/c2b/v1/simulate" Mock.success)
          Mock.mocked h1 = (r2, h2, out2) ->
        token_endpoint_calls (out1 ++ out2) = 1%nat
        /\ target_endpoint_calls (out1 ++ out2) = 2%nat).
Proof.
  assert (~ cached_token_valid (self Mock.fresh)
              (clock Mock.mocked (steps Mock.fresh))) as Cold.
  { intros [t [e [Tk _]]]. discriminate. }
  split; [|split].
  - apply (cached_or_fetched_once Mock.mocked Mock.warm).
    exists "api_token", (1672531200000 + 3539000). valid_here.
  - destruct (cached_or_fetched_once Mock.mocked Mock.fresh)
      as [_ [Fetch _]].
    destruct (Fetch Cold) as [r [h' [R After]]].
    exists r, h'. split; [exact R|].
    destruct (After Mock.mockTokenResponse eq_refl) as [Er [_ Ex]].
    split; [exact Er | exact Ex].
  - intros r1 h1 out1 r2 h2 out2 R1 R2.
    destruct (cached_or_fetched_once Mock.mocked Mock.fresh)
      as [_ [_ Twice]].
    apply (Twice _ _ _ _ _ _ _ _ _ _ R1 R2) with (payload := Mock.mockTokenResponse);
      [|exact Cold|reflexivity].
    vm_compute in R1. injection R1 as _ <- _.
    exists "api_token", (1672531200001 + 3539 * 1000). valid_here.
Defined.

(** C2 at a failing input.  The token endpoint answers 500 with the JSON
    body [null] while the client holds an expired token: the cache slots
    are left as they were, but what [_getAuthToken] throws is the
    [TypeError] raised inside [_handleError] by [data.errorCode], not a
    normalized [Error]. *)
Theorem refresh_failure_not_normalized :
  exists e h' out,
    run _getAuthToken (Mock.token_endpoint_rejects Mock.null_body) Mock.stale
    = (Abrupt e, h', out)
    /\ self h' = self Mock.stale
    /\ e = TypeError_nullish_read "errorCode"
    /\ forall message, e <> Error message.
Proof.
  assert (~ cached_token_valid (self Mock.stale)
              (clock (Mock.token_endpoint_rejects Mock.null_body)
                 (steps Mock.stale))) as Expired.
  { intros [t [e [_ [_ [Ex [_ Lt]]]]]]. injection Ex as <-.
    revert Lt. vm_compute. discriminate. }
  destruct (failed_fetch_keeps_cache _ _ Mock.null_body Expired eq_refl)
    as [h' [Run Same]].
  exists (propagated Mock.null_body), h'. eexists.
  split; [exact Run|]. split; [exact Same|].
  split; [reflexivity | intros message E; discriminate E].
Qed.

End TokenCache.

(** ** The error normalizer *)

Module Normalizer.
Import JS Safaricom Observed JSFacts NormalizerFacts PipelineFacts.



(** For a message that is a string, the clauses of ["409"] and
    ["500.003.1001"] choose the text of the first phrase of their chain
    that occurs in the message, and their fallback when none does. *)
Lemma phrase_clauses_on_strings (st : Z) (s : string) :
  userMessage_of BillManagerConflict st (JStr s)
  = Normal match first_occurring s BillManager_phrases with
           | Some text => text
           | None => BillManager_otherwise (JStr s)
           end
  /\ userMessage_of C2BRegisterUrl st (JStr s)
     = Normal match first_occurring s C2B_phrases with
              | Some text => text
              | None => C2B_otherwise (JStr s)
              end.
Proof. split; apply first_phrase_string. Qed.

(** C3 at a failing input.  A server answer whose JSON body is [null]: the
    first property read of the normalizer, [data.errorCode], throws a
    [TypeError]; no [Error] is returned. *)
Theorem normalizer_throws_on_null_body :
  _handleError Mock.null_body = Abrupt (TypeError_nullish_read "errorCode")
  /\ ~ exists e, _handleError Mock.null_body = Normal e.
Proof.
  assert (nullish JNull) as N by (right; reflexivity).
  pose proof (handleError_nullish_body 500 JNull true
                (message Mock.null_body) N) as T.
  split; [exact T|]. intros [e E].
  change (_handleError Mock.null_body) with
    (_handleError {| response := Some {| status := 500; data := JNull |};
                     request := true; message := message Mock.null_body |})
    in E.
  rewrite T in E. discriminate.
Qed.

(** C7 at a failing input.  On the body [null], whatever the status,
    neither the code nor the message is extracted (each extraction throws
    at its first probe), and the outcome is a [TypeError], not the generic
    fallback carrying the status and the dump of the body. *)
Theorem null_body_is_not_probed (st : Z) :
  errorCode_of JNull = Abrupt (TypeError_nullish_read "errorCode")
  /\ errorMessage_of JNull = Abrupt (TypeError_nullish_read "errorMessage")
  /\ _handleError (answered st JNull)
     = Abrupt (TypeError_nullish_read "errorCode")
  /\ _handleError (answered st JNull)
     <> Normal (Error (default_message st (JSON_stringify JNull))).
Proof.
  assert (_handleError (answered st JNull)
          = Abrupt (TypeError_nullish_read "errorCode")) as T.
  { apply handleError_nullish_body. right. reflexivity. }
  split; [reflexivity|]. split; [reflexivity|]. split; [exact T|].
  rewrite T. discriminate.
Qed.

(** C8 at a failing input.  The body [{errorCode: "409", errorMessage: 42}]
    selects the clause of ["409"]; its first phrase test calls
    [errorMessage.includes] on a number, which throws a [TypeError] instead
    of falling through to the per-code fallback. *)
Theorem phrase_test_throws_on_numeric_message :
  errorCode_of (JObj [("errorCode", JStr "409"); ("errorMessage", JNum 42)])
  = Normal (JStr "409")
  /\ errorMessage_of
       (JObj [("errorCode", JStr "409"); ("errorMessage", JNum 42)])
     = Normal (JNum 42)
  /\ select "409" cases = BillManagerConflict
  /\ _handleError Mock.numeric_message
     = Abrupt (TypeError_not_a_function "includes")
  /\ _handleError Mock.numeric_message
     <> Normal (Error (BillManager_otherwise (JNum 42))).
Proof.
  assert (_handleError Mock.numeric_message
          = Abrupt (TypeError_not_a_function "includes")) as T
    by reflexivity.
  split; [reflexivity|]. split; [reflexivity|]. split; [reflexivity|].
  split; [exact T|]. rewrite T. discriminate.
Qed.

(** A dispatcher call whose target endpoint rejects throws what
    [throw this._handleError(error)] propagates. *)
Lemma makeRequest_rejected (w : world) (h h1 : heap) (endpoint : string)
    (body : value) (tok : string) (out : list event) (error : failure) :
  run _getAuthToken w h = (Normal tok, h1, out) ->
  post_reply w (steps h1) {| base := baseUrl (self h); path := endpoint |}
    body ("Bearer " ++ tok) = Rejected error ->
  run (_makeRequest endpoint body) w h
  = (Abrupt (propagated error), step h1,
     (out ++ [POST {| base := baseUrl (self h); path := endpoint |} body
                ("Bearer " ++ tok)])%list).
Proof.
  intros R Reply. rewrite makeRequest_unfold, R. cbv zeta.
  destruct (getAuthToken_frame w h h1 _ _ R) as [_ [_ [_ [B _]]]].
  rewrite B, Reply. reflexivity.
Qed.

(** C9.  A failure in which the request was sent and no response came
    back is normalized to one fixed error, the same for the token endpoint
    and for every target endpoint. *)
Theorem no_response_is_unreachable (error : failure) :
  response error = None -> request error = true ->
  _handleError error = Normal (Error no_response_message)
  /\ (forall (w : world) (h : heap),
        ~ cached_token_valid (self h) (clock w (steps h)) ->
        get_reply w (fetch_step h) (token_url (self h))
          (basic_authorization (self h)) = Rejected error ->
        exists h',
          run _getAuthToken w h
          = (Abrupt (Error no_response_message), h',
             [GET (token_url (self h)) (basic_authorization (self h))]))
  /\ (forall (w : world) (h h1 : heap) (endpoint : string) (body : value)
             (tok : string) (out : list event),
        run _getAuthToken w h = (Normal tok, h1, out) ->
        post_reply w (steps h1)
          {| base := baseUrl (self h); path := endpoint |} body
          ("Bearer " ++ tok) = Rejected error ->
        run (_makeRequest endpoint body) w h
        = (Abrupt (Error no_response_message), step h1,
           (out ++ [POST {| base := baseUrl (self h); path := endpoint |}
                      body ("Bearer " ++ tok)])%list)).
Proof.
  intros NoResponse Sent.
  pose proof (handleError_no_response error NoResponse Sent) as N.
  assert (propagated error = Error no_response_message) as P
    by (unfold propagated; now rewrite N).
  split; [exact N|]. split.
  - intros w h Stale Reply.
    destruct (TokenCache.failed_fetch_keeps_cache w h error Stale Reply)
      as [h' [Run _]].
    exists h'. now rewrite <- P.
  - intros w h h1 endpoint body tok out R Reply.
    rewrite <- P. exact (makeRequest_rejected w h h1 _ _ _ _ _ R Reply).
Qed.

(** The unanswered request of the mocks, at the token endpoint of a client
    without token and at two target endpoints of that client. *)
Lemma no_response_is_unreachable_witness :
  _handleError Mock.no_answer = Normal (Error no_response_message)
  /\ (exists h',
        run _getAuthToken (Mock.token_endpoint_rejects Mock.no_answer)
          Mock.fresh
        = (Abrupt (Error no_response_message), h',
           [GET (token_url Mock.safaricom)
              (basic_authorization Mock.safaricom)]))
  /\ (exists h' out,
        run (_makeRequest "/mpesa/stkpush/v1/processrequest" Mock.success)
          (Mock.target_endpoint_rejects Mock.no_answer) Mock.fresh
        = (Abrupt (Error no_response_message), h', out))
  /\ (exists h' out,
        run (_makeRequest "/mpesa/b2c/v1/paymentrequest" Mock.success)
          (Mock.target_endpoint_rejects Mock.no_answer) Mock.fresh
        = (Abrupt (Error no_response_message), h', out)).
Proof.
  destruct (no_response_is_unreachable Mock.no_answer eq_refl eq_refl)
    as [Pure [AtToken AtTarget]].
  split; [exact Pure|]. split; [|split].
  - apply (AtToken (Mock.token_endpoint_rejects Mock.no_answer) Mock.fresh);
      [|reflexivity].
    intros [t [e [Tk _]]]. discriminate Tk.
  - do 2 eexists.
    apply (AtTarget (Mock.target_endpoint_rejects Mock.no_answer) Mock.fresh);
      [vm_compute; reflexivity | reflexivity].
  - do 2 eexists.
    apply (AtTarget (Mock.target_endpoint_rejects Mock.no_answer) Mock.fresh);
      [vm_compute; reflexivity | reflexivity].
Defined.

(** C10.  Whenever the extracted code stringifies to ["2001"], whatever
    the status, the message and the endpoint, the normalizer returns the
    "Invalid PIN" message: the first clause labelled ["2001"] is the one
    entered, no discriminant enters the two later clauses with that label,
    and no input at all makes the normalizer return their message. *)
Theorem code_2001_is_invalid_pin (st : Z) (body code : value) (req : bool)
    (msg : string) :
  errorCode_of body = Normal code ->
  to_String code = "2001" ->
  let error := {| response := Some {| status := st; data := body |};
                  request := req; message := msg |} in
  _handleError error = Normal (Error Invalid_PIN)
  /\ select (to_String code) cases = InvalidPIN
  /\ (forall key,
        select key cases <> InvalidInitiatorInformation
        /\ select key cases <> InvalidInitiatorInformationB2C)
  /\ (forall other e,
        _handleError other = Normal e ->
        e <> Error Invalid_Initiator_Information)
  /\ (forall (w : world) (h h1 : heap) (endpoint : string) (sent : value)
             (tok : string) (out : list event),
        run _getAuthToken w h = (Normal tok, h1, out) ->
        post_reply w (steps h1)
          {| base := baseUrl (self h); path := endpoint |} sent
          ("Bearer " ++ tok) = Rejected error ->
        run (_makeRequest endpoint sent) w h
        = (Abrupt (Error Invalid_PIN), step h1,
           (out ++ [POST {| base := baseUrl (self h); path := endpoint |}
                      sent ("Bearer " ++ tok)])%list)).
Proof.
  intros Code Is2001 error.
  pose proof (errorCode_of_normal body code Code) as D.
  assert (_handleError error = Normal (Error Invalid_PIN)) as N.
  { unfold error, _handleError. cbn [response data status].
    rewrite Code, (errorMessage_priority body D). cbn [bind_completion].
    rewrite Is2001. reflexivity. }
  split; [exact N|].
  split; [rewrite Is2001; reflexivity|].
  split; [exact select_never_shadowed|].
  split; [exact handleError_never_initiator|].
  intros w h h1 endpoint sent tok out R Reply.
  rewrite (makeRequest_rejected w h h1 _ _ _ _ _ R Reply).
  unfold propagated. now rewrite N.
Qed.

(** The result code 2001, as a number and under status 500, on the STK
    push endpoint. *)
Lemma code_2001_is_invalid_pin_witness :
  _handleError (answered 500 (JObj [("ResultCode", JNum 2001)]))
  = Normal (Error Invalid_PIN)
  /\ exists h' out,
       run (_makeRequest "/mpesa/stkpush/v1/processrequest" Mock.success)
         (Mock.target_endpoint_rejects
            (answered 500 (JObj [("ResultCode", JNum 2001)]))) Mock.fresh
       = (Abrupt (Error Invalid_PIN), h', out).
Proof.
  destruct (code_2001_is_invalid_pin 500 (JObj [("ResultCode", JNum 2001)])
              (JNum 2001) true
              (message (answered 500 (JObj [("ResultCode", JNum 2001)])))
              eq_refl eq_refl)
    as [Pure [_ [_ [_ AtTarget]]]].
  split; [exact Pure|].
  do 2 eexists.
  apply (AtTarget
           (Mock.target_endpoint_rejects
              (answered 500 (JObj [("ResultCode", JNum 2001)])))
           Mock.fresh);
    [vm_compute; reflexivity | reflexivity].
Defined.

End Normalizer.

(** ** Construction *)

Module Construction.
Import JS Safaricom Observed JSFacts.

Lemma BASE_URLS_get_unknown (env : string) :
  env <> "sandbox" -> env <> "production" ->
  member env Object_prototype = false ->
  BASE_URLS_get env = Absent.
Proof.
  intros S P Inh. unfold BASE_URLS_get, BASE_URLS. cbn [assoc].
  destruct (String.eqb_spec env "sandbox"); [contradiction|].
  destruct (String.eqb_spec env "production"); [contradiction|].
  now rewrite Inh.
Qed.

Lemma constructor_accepts (o : Options.t) (key secret code : string) :
  Options.consumerKey o = Some key -> key <> "" ->
  Options.consumerSecret o = Some secret -> secret <> "" ->
  Options.shortCode o = Some code -> code <> "" ->
  constructor o
  = let env := field_or (Options.environment o) "sandbox" in
    if negb (slot_truthy (BASE_URLS_get env))
    then Abrupt (Error ("Invalid environment specified: " ++ env
                        ++ ". Use 'sandbox' or 'production'."))
    else Normal {| consumerKey := key;
                   consumerSecret := secret;
                   shortCode := code;
                   passkey := Options.passkey o;
                   initiatorName := Options.initiatorName o;
                   securityCredential := Options.securityCredential o;
                   environment := env;
                   baseUrl := BASE_URLS_get env;
                   token := None;
                   tokenExpiresAt := None |}.
Proof.
  intros K Nk S Ns C Nc. unfold constructor. rewrite K, S, C.
  apply truthy_string_iff in Nk, Ns, Nc. rewrite Nk, Ns, Nc. reflexivity.
Qed.

(** The client of the examples is the one the constructor builds from the
    options of the test suite. *)
Lemma constructed_from_mockOptions :
  constructor Mock.mockOptions = Normal Mock.safaricom.
Proof.
  rewrite (constructor_accepts Mock.mockOptions "test_key" "test_secret"
             "600988"); try reflexivity; discriminate.
Qed.

(** The name of a member inherited from [Object.prototype] passes the
    check of the constructor: [baseUrl] is then that member, not a URL. *)
Lemma inherited_member_accepted :
  exists c,
    constructor (Mock.with_environment (Some "constructor")) = Normal c
    /\ baseUrl c = Inherited "constructor".
Proof. eexists. split; reflexivity. Qed.

(** C4, as stated, fails: the empty string is a string other than
    ['sandbox'] and ['production'], and with the environment set to it the
    credentials of the test suite construct a client (on the sandbox URL,
    by [options.environment || "sandbox"]). *)
Lemma empty_environment_counterexample :
  ~ (forall (o : Options.t) (env : string),
       valid_credentials o ->
       Options.environment o = Some env ->
       env <> "sandbox" -> env <> "production" ->
       exists message, constructor o = Abrupt (Error message)).
Proof.
  intro Stated.
  destruct (Stated (Mock.with_environment (Some "")) "") as [message E];
    try discriminate; try reflexivity.
  exists "test_key", "test_secret", "600988".
  repeat split; discriminate.
Qed.

(** C4, amended.  For every valid credential set, constructing the client
    with the environment field omitted, or empty, selects the sandbox base
    URL; constructing it with the environment field set to a non-empty
    string other than ['sandbox'] and ['production'] that does not name a
    member inherited from [Object.prototype] fails at construction time
    with the error that names the environment. *)
Theorem environment_selection (o : Options.t) :
  valid_credentials o ->
  ((Options.environment o = None \/ Options.environment o = Some "") ->
   exists c,
     constructor o = Normal c
     /\ environment c = "sandbox"
     /\ baseUrl c = Own "https://sandbox.safaricom.co.ke")
  /\ (forall env,
        Options.environment o = Some env ->
        env <> "" -> env <> "sandbox" -> env <> "production" ->
        member env Object_prototype = false ->
        constructor o
        = Abrupt (Error ("Invalid environment specified: " ++ env
                         ++ ". Use 'sandbox' or 'production'."))).
Proof.
  intros [key [secret [code [K [Nk [S [Ns [C Nc]]]]]]]].
  rewrite (constructor_accepts o key secret code K Nk S Ns C Nc).
  split.
  - intros [E|E]; rewrite E; cbn; eexists; repeat split.
  - intros env E Ne Ns' Np Inh. rewrite E. cbv zeta.
    unfold field_or. apply truthy_string_iff in Ne. rewrite Ne.
    rewrite (BASE_URLS_get_unknown env Ns' Np Inh). reflexivity.
Qed.

(** The credentials of the test suite, with the environment omitted and
    with the environment of the test ["invalid"]. *)
Lemma environment_selection_witness :
  (exists c,
     constructor (Mock.with_environment None) = Normal c
     /\ environment c = "sandbox"
     /\ baseUrl c = Own "https://sandbox.safaricom.co.ke")
  /\ constructor (Mock.with_environment (Some "invalid"))
     = Abrupt (Error "Invalid environment specified: invalid. Use 'sandbox' or 'production'.").
Proof.
  assert (forall env, valid_credentials (Mock.with_environment env)) as V.
  { intro env. exists "test_key", "test_secret", "600988".
    repeat split; discriminate. }
  split.
  - apply (environment_selection (Mock.with_environment None) (V None)).
    left. reflexivity.
  - apply (proj2 (environment_selection
                    (Mock.with_environment (Some "invalid"))
                    (V (Some "invalid"))) "invalid");
      try reflexivity; discriminate.
Defined.

End Construction.

(** ** The credential-guarded operations *)

Module Operations.
Import JS Safaricom Observed JSFacts NormalizerFacts PipelineFacts.
Local Open Scope js_scope.

(** C5.  An operation invoked on a client that lacks the credential it
    requires (the passkey for [stkPush] and [stkQuery]; the initiator name
    or the security credential for the seven initiator operations) throws
    its configuration error at once: the client is untouched, the clock is
    not read, and neither the token endpoint nor a target endpoint is
    called. *)
Theorem missing_credential_fails_fast (op : operation) (params : value)
    (w : world) (h : heap) :
  missing_credential op (self h) = true ->
  exists out,
    run (invoke op params) w h = (Abrupt (configuration_error op), h, out)
    /\ out = []
    /\ token_endpoint_calls out = 0%nat
    /\ target_endpoint_calls out = 0%nat.
Proof.
  intro Missing. exists []. split; [|repeat split].
  exact (invoke_missing op params w h Missing).
Qed.

(** A client without passkey and without initiator credentials: the STK
    push and the B2C payment both stop before the first call. *)
Lemma missing_credential_fails_fast_witness :
  run (stkPush Mock.stkPushParams) Mock.mocked
    {| self := Mock.bare; steps := 0 |}
  = (Abrupt (Error "Passkey is required for STK Push."),
     {| self := Mock.bare; steps := 0 |}, [])
  /\ run (b2c Mock.stkPushParams) Mock.mocked
       {| self := Mock.bare; steps := 0 |}
     = (Abrupt (Error "InitiatorName and SecurityCredential are required for B2C transactions."),
        {| self := Mock.bare; steps := 0 |}, []).
Proof.
  split.
  - destruct (missing_credential_fails_fast op_stkPush Mock.stkPushParams
                Mock.mocked {| self := Mock.bare; steps := 0 |} eq_refl)
      as [out [Run [Nil _]]].
    rewrite Nil in Run. exact Run.
  - destruct (missing_credential_fails_fast op_b2c Mock.stkPushParams
                Mock.mocked {| self := Mock.bare; steps := 0 |} eq_refl)
      as [out [Run [Nil _]]].
    rewrite Nil in Run. exact Run.
Defined.

Ltac read_params D :=
  repeat first [ rewrite (bind_param_or _ _ _ _ _ _ D)
               | rewrite (bind_param _ _ _ _ _ D) ].

(** C6.  On a client with a passkey, [stkPush] and [stkQuery] read the
    local clock once, and the body they post (whenever the token step
    returns a token) carries [Timestamp], the clock so formatted, and
    [Password] = base64(shortCode + passkey + Timestamp); the timestamp is
    YYYYMMDDHHMMSS for every date with a four-digit year. *)
Theorem password_in_outgoing_body (op : operation) (params : value)
    (w : world) (h h1 : heap) (pk tok : string) (out : list event) :
  requires_passkey op = true ->
  passkey (self h) = Some pk -> pk <> "" ->
  ~ nullish params ->
  run _getAuthToken w (step h) = (Normal tok, h1, out) ->
  let date := local_time w (steps h) in
  let timestamp := timestamp_of date in
  exists r fields,
    run (invoke op params) w h
    = (r, step h1,
       (out ++ [POST {| base := baseUrl (self h); path := endpoint_of op |}
                  (JObj fields) ("Bearer " ++ tok)])%list)
    /\ lookup "Password" fields
       = Some (JStr (derived_password (shortCode (self h)) pk timestamp))
    /\ lookup "Timestamp" fields = Some (JStr timestamp)
    /\ (four_digit_year_date date -> timestamp = YYYYMMDDHHMMSS date).
Proof.
  intros Uses Pk Npk D R date timestamp.
  assert (negb (truthy_field (passkey (self h))) = false) as Guard.
  { rewrite Pk. cbn [truthy_field].
    now rewrite (proj2 (truthy_string_iff pk) Npk). }
  destruct op; try discriminate Uses; cbn [invoke endpoint_of].
  - unfold stkPush. rewrite bind_read_this, Guard. cbv zeta.
    rewrite bind_getTimestamp. read_params D.
    match goal with
    | |- context [run (_makeRequest ?ep ?body) w (step h)] =>
        destruct (makeRequest_emits w (step h) h1 ep body tok out R)
          as [r Q]; rewrite Q
    end.
    rewrite Pk. do 2 eexists. split; [reflexivity|].
    split; [reflexivity|]. split; [reflexivity|].
    apply timestamp_format.
  - unfold stkQuery. rewrite bind_read_this, Guard. cbv zeta.
    rewrite bind_getTimestamp. read_params D.
    match goal with
    | |- context [run (_makeRequest ?ep ?body) w (step h)] =>
        destruct (makeRequest_emits w (step h) h1 ep body tok out R)
          as [r Q]; rewrite Q
    end.
    rewrite Pk. do 2 eexists. split; [reflexivity|].
    split; [reflexivity|]. split; [reflexivity|].
    apply timestamp_format.
Qed.

(** The scenario of the test suite: shortcode 600988, passkey
    [test_passkey], the clock at 2023-01-01 00:00:00. *)
Lemma password_in_outgoing_body_witness :
  exists r h' fields,
    run (stkPush Mock.stkPushParams) Mock.mocked Mock.fresh
    = (r, h',
       [GET (token_url Mock.safaricom) (basic_authorization Mock.safaricom);
        POST {| base := baseUrl Mock.safaricom;
                path := "/mpesa/stkpush/v1/processrequest" |}
          (JObj fields) "Bearer api_token"])
    /\ lookup "Password" fields
       = Some (JStr (Base64.base64 "600988test_passkey20230101000000"))
    /\ lookup "Timestamp" fields = Some (JStr "20230101000000")
    /\ Base64.base64 "600988test_passkey20230101000000"
       = "NjAwOTg4dGVzdF9wYXNza2V5MjAyMzAxMDEwMDAwMDA=".
Proof.
  edestruct (password_in_outgoing_body op_stkPush Mock.stkPushParams
               Mock.mocked Mock.fresh)
    as [r [fields [Run [Password [Timestamp Format]]]]];
    [ reflexivity | reflexivity | discriminate
    | intros [E|E]; discriminate E
    | vm_compute; reflexivity | ].
  exists r. eexists. exists fields.
  split; [exact Run|].
  split; [exact Password|].
  split; [exact Timestamp | vm_compute; reflexivity].
Defined.

End Operations.

(** ** What holds on well-shaped failures *)

Module WellShaped.
Import JS Safaricom Observed JSFacts NormalizerFacts PipelineFacts.

(** X1.  A failed refresh never writes the cache: whatever the failure,
    [_getAuthToken] throws after exactly one call of the token endpoint and
    both slots keep their values; what it throws is the normalized [Error]
    whenever the normalizer returns one. *)
Theorem failed_refresh_leaves_cache (w : world) (h : heap) (error : failure) :
  ~ cached_token_valid (self h) (clock w (steps h)) ->
  get_reply w (fetch_step h) (token_url (self h))
    (basic_authorization (self h)) = Rejected error ->
  exists e h',
    run _getAuthToken w h
    = (Abrupt e, h', [GET (token_url (self h)) (basic_authorization (self h))])
    /\ token (self h') = token (self h)
    /\ tokenExpiresAt (self h') = tokenExpiresAt (self h)
    /\ (forall normalized, _handleError error = Normal normalized ->
        e = normalized).
Proof.
  intros Stale Reply.
  destruct (TokenCache.failed_fetch_keeps_cache w h error Stale Reply)
    as [h' [Run Same]].
  exists (propagated error), h'. rewrite Same.
  repeat split; try exact Run.
  intros normalized N. unfold propagated. now rewrite N.
Qed.

(** An expired token and a token endpoint answering 400: the old token
    stays in the cache. *)
Lemma failed_refresh_leaves_cache_witness :
  exists h',
    run _getAuthToken
      (Mock.token_endpoint_rejects
         (answered 400 (JObj [("errorMessage", JStr "Invalid request")])))
      Mock.stale
    = (Abrupt (Error "The API request failed with status code 400. The API returned the following message: Invalid request"),
       h', [GET (token_url Mock.safaricom) (basic_authorization Mock.safaricom)])
    /\ token (self h') = Some "old_token"
    /\ tokenExpiresAt (self h') = Some 1000.
Proof.
  destruct (failed_refresh_leaves_cache
              (Mock.token_endpoint_rejects
                 (answered 400 (JObj [("errorMessage", JStr "Invalid request")])))
              Mock.stale
              (answered 400 (JObj [("errorMessage", JStr "Invalid request")])))
    as [e [h' [Run [Tk [Ex Norm]]]]].
  - intros [t [expiry [_ [_ [Ex [_ Lt]]]]]]. injection Ex as <-.
    revert Lt. vm_compute. discriminate.
  - reflexivity.
  - exists h'. rewrite (Norm _ eq_refl) in Run.
    split; [exact Run|]. split; [exact Tk | exact Ex].
Defined.



(** X3.  For the codes 409 and 500.003.1001 and a message that is a string,
    the message returned is the text of the first phrase of the clause's
    chain that occurs in the extracted message, and the clause's fallback
    with the extracted message when no phrase occurs. *)
Theorem first_matching_phrase_wins (st : Z) (body : value) (s : string)
    (req : bool) (msg : string) :
  errorMessage_of body = Normal (JStr s) ->
  let error := {| response := Some {| status := st; data := body |};
                  request := req; message := msg |} in
  (forall code,
     errorCode_of body = Normal code -> to_String code = "409" ->
     _handleError error
     = Normal (Error match first_occurring s BillManager_phrases with
                     | Some text => text
                     | None => BillManager_otherwise (JStr s)
                     end))
  /\ (forall code,
        errorCode_of body = Normal code -> to_String code = "500.003.1001" ->
        _handleError error
        = Normal (Error match first_occurring s C2B_phrases with
                        | Some text => text
                        | None => C2B_otherwise (JStr s)
                        end))
  /\ (forall chain text,
        first_occurring s chain = Some text <->
        exists before phrase after,
          chain = (before ++ (phrase, text) :: after)%list
          /\ string_includes s phrase = true
          /\ forall p t, In (p, t) before -> string_includes s p = false)
  /\ (forall phrase,
        string_includes s phrase = true
        <-> exists before after, s = before ++ phrase ++ after).
Proof.
  intros Text error.
  split; [|split; [|split]].
  - intros code Code Is. unfold error, _handleError.
    cbn [response data status]. rewrite Code, Text. cbn [bind_completion].
    rewrite Is. cbn [select cases String.eqb Ascii.eqb Bool.eqb].
    cbn [userMessage_of]. rewrite first_phrase_string. reflexivity.
  - intros code Code Is. unfold error, _handleError.
    cbn [response data status]. rewrite Code, Text. cbn [bind_completion].
    rewrite Is. cbn [select cases String.eqb Ascii.eqb Bool.eqb].
    cbn [userMessage_of]. rewrite first_phrase_string. reflexivity.
  - intros chain text. apply first_occurring_some.
  - intro phrase. apply string_includes_iff.
Qed.

(** A conflict whose message contains two known phrases: the earlier one
    in the chain decides. *)
Lemma first_matching_phrase_wins_witness :
  _handleError
    (answered 409
       (JObj [("errorCode", JStr "409");
              ("errorMessage",
               JStr "cannot be cancelled: Biller already Registered")]))
  = Normal (Error "This shortcode is already opted into Bill Manager. You do not need to opt-in again.").
Proof.
  refine (proj1 (first_matching_phrase_wins 409
                   (JObj [("errorCode", JStr "409");
                          ("errorMessage",
                           JStr "cannot be cancelled: Biller already Registered")])
                   "cannot be cancelled: Biller already Registered"
                   true _ eq_refl) (JStr "409") eq_refl eq_refl).
Defined.


End WellShaped.

(** ** Every method, through the dispatcher *)

Module Methods.
Import JS Safaricom Observed Vocabulary JSFacts NormalizerFacts PipelineFacts.
Local Open Scope js_scope.

Create HintDb quiet.

Lemma quiet_ret {A} (a : A) : quiet (ret a).
Proof. intros w h. exists (Normal a), h. auto. Qed.

Lemma quiet_throw {A} (e : thrown) : quiet (@throw A e).
Proof. intros w h. exists (Abrupt e), h. auto. Qed.

Lemma quiet_lift {A} (c : completion A) : quiet (lift c).
Proof. destruct c; [apply quiet_ret | apply quiet_throw]. Qed.

Lemma quiet_read_this : quiet read_this.
Proof. intros w h. exists (Normal (self h)), h. auto. Qed.

Lemma quiet_getTimestamp : quiet _getTimestamp.
Proof.
  intros w h. exists (Normal (timestamp_of (local_time w (steps h)))), (step h).
  repeat split. cbn. auto.
Qed.

Lemma quiet_param (params : value) (k : string) : quiet (param params k).
Proof. apply quiet_lift. Qed.

Lemma quiet_param_or (params : value) (k d : string) :
  quiet (param_or params k d).
Proof. apply quiet_lift. Qed.

#[local] Hint Resolve quiet_ret quiet_throw quiet_lift quiet_read_this
  quiet_getTimestamp quiet_param quiet_param_or : quiet.

Lemma dispatches_throw (endpoint : string) (e : thrown) :
  dispatches endpoint (throw e).
Proof. intros w h. left. exists e, h. auto. Qed.

Lemma dispatches_makeRequest (endpoint : string) (body : value) :
  dispatches endpoint (_makeRequest endpoint body).
Proof. intros w h. right. exists body, h. auto. Qed.

(** Quiet steps in front of a method body leave it a method body. *)
Lemma dispatches_bind {A} (endpoint : string) (m : M A) (k : A -> M value) :
  quiet m -> (forall a, dispatches endpoint (k a)) ->
  dispatches endpoint (bind m k).
Proof.
  intros Q D w h. destruct (Q w h) as [r [h0 [E [Same Le]]]].
  unfold bind. rewrite E. destruct r as [a|e].
  - destruct (D a w h0) as [[e [h1 [E1 [S1 L1]]]]|[body [h1 [E1 [S1 L1]]]]].
    + left. exists e, h1. rewrite E1. repeat split; [congruence | lia].
    + right. exists body, h1.
      destruct (k a w h0) as [[r2 h2] out2] eqn:K. cbn [app].
      repeat split; [congruence | congruence | lia].
  - left. exists e, h0. auto.
Qed.

Ltac method_body :=
  repeat first
    [ apply dispatches_makeRequest
    | apply dispatches_throw
    | apply dispatches_bind; [auto with quiet | intro]
    | match goal with
      | |- dispatches _ (if ?b then _ else _) => destruct b
      end
    | progress cbv zeta ].

(** Each embedded method prepares quietly, then throws or dispatches to
    its own endpoint. *)
Lemma perform_dispatches (m : method) (params : value) :
  dispatches (endpoint_for m) (perform m params).
Proof.
  destruct m as [op|op]; destruct op; cbn [perform invoke invoke_open
    endpoint_for endpoint_of endpoint_of_open];
    match goal with
    | |- dispatches _ (?f params) => unfold f
    end; method_body.
Qed.

Lemma same_configuration_refl (c : client) : same_configuration c c.
Proof. repeat split. Qed.

Lemma same_configuration_set (c : client) (t : string) (expiry : Z) :
  same_configuration c (set_tokenExpiresAt (set_token c t) expiry).
Proof. repeat split. Qed.

(** What one call of [_getAuthToken] does to the client, whatever the
    world answers. *)
Lemma getAuthToken_summary (w : world) (h h' : heap) (r : completion string)
    (out : list event) :
  run _getAuthToken w h = (r, h', out) ->
  same_configuration (self h) (self h')
  /\ (cache_consistent (self h) -> cache_consistent (self h'))
  /\ (out = [] \/ out = [GET (token_url (self h)) (basic_authorization (self h))])
  /\ (forall tok, r = Normal tok ->
        token (self h') = Some tok /\ tokenExpiresAt (self h') <> None)
  /\ (forall e, r = Abrupt e -> self h' = self h)
  /\ (steps h < steps h')%nat.
Proof.
  destruct (cached_token_valid_dec (self h) (clock w (steps h))) as [V|Stale].
  - pose proof V as [t [e [Tk [_ [Ex _]]]]].
    rewrite (getAuthToken_cached w h t V Tk).
    intro E. injection E as <- <- <-. cbn [self step steps].
    split; [apply same_configuration_refl|].
    split; [auto|]. split; [now left|].
    split; [|split; [discriminate | lia]].
    intros tok E. injection E as <-. split; [exact Tk | congruence].
  - rewrite (getAuthToken_fetch w h Stale). cbv zeta.
    assert (steps h <= fetch_step h)%nat as Le.
    { unfold fetch_step. destruct (consults_clock (self h)); lia. }
    destruct (get_reply w (fetch_step h) _ _) as [payload|error];
      intro E; injection E as <- <- <-.
    + cbn [self steps refreshed].
      split; [apply same_configuration_set|].
      split; [intros _; split; discriminate|]. split; [now right|].
      split; [|split; [discriminate | lia]].
      intros tok E. injection E as <-. split; [reflexivity | discriminate].
    + cbn [self steps].
      split; [apply same_configuration_refl|].
      split; [auto|]. split; [now right|].
      split; [|split; [reflexivity | lia]].
      intros tok E. destruct (_handleError error); discriminate.
Qed.

(** What one dispatcher call does to the client and which calls it emits,
    whatever the world answers. *)
Lemma makeRequest_summary (w : world) (h h' : heap) (endpoint : string)
    (body : value) (r : completion value) (out : list event) :
  run (_makeRequest endpoint body) w h = (r, h', out) ->
  same_configuration (self h) (self h')
  /\ (cache_consistent (self h) -> cache_consistent (self h'))
  /\ (exists gets posts,
        out = (gets ++ posts)%list
        /\ (gets = []
            \/ gets = [GET (token_url (self h)) (basic_authorization (self h))])
        /\ (posts = []
            \/ posts = [POST {| base := baseUrl (self h); path := endpoint |}
                          body ("Bearer " ++ text_of (token (self h')))]))
  /\ (steps h < steps h')%nat.
Proof.
  rewrite makeRequest_unfold.
  destruct (run _getAuthToken w h) as [[rt h1] gets] eqn:T.
  destruct (getAuthToken_summary w h h1 rt gets T)
    as [Same [Cons [Gets [Tok [_ Lt]]]]].
  destruct rt as [tok|e]; cbv zeta; intro E; injection E as <- <- <-.
  - cbn [self step steps].
    destruct (Tok tok eq_refl) as [Tk _].
    split; [exact Same|]. split; [exact Cons|]. split; [|lia].
    exists gets. eexists. split; [reflexivity|]. split; [exact Gets|].
    right. rewrite Tk. cbn [text_of].
    destruct Same as [_ [_ [_ [_ [_ [_ [_ B]]]]]]]. now rewrite B.
  - split; [exact Same|]. split; [exact Cons|]. split; [|exact Lt].
    exists gets, []. rewrite app_nil_r. auto.
Qed.

Lemma counts_of_trace (gets posts : list event) (g p : event) :
  (gets = [] \/ gets = [g]) -> (posts = [] \/ posts = [p]) ->
  is_GET g = true -> is_GET p = false ->
  (token_endpoint_calls (gets ++ posts) <= 1)%nat
  /\ (target_endpoint_calls (gets ++ posts) <= 1)%nat.
Proof.
  intros [->| ->] [->| ->] G P;
    unfold token_endpoint_calls, target_endpoint_calls, is_POST;
    cbn [app filter]; rewrite ?G, ?P; cbn; lia.
Qed.

(** X5.  Whatever its arguments, the state of the client and the answers
    of the world, a method emits at most one call of the token endpoint
    and, after it, at most one call of a target endpoint; the target call
    goes to the method's own endpoint under the base URL of the client and
    is authorized by the token the client holds when the method ends. *)
Theorem every_method_calls_at_most_once (m : method) (params : value)
    (w : world) (h : heap) :
  match run (perform m params) w h with
  | (_, h', out) =>
      dispatcher_trace (self h) (endpoint_for m) (self h') out
      /\ (token_endpoint_calls out <= 1)%nat
      /\ (target_endpoint_calls out <= 1)%nat
  end.
Proof.
  unfold run.
  destruct (perform_dispatches m params w h)
    as [[e [h0 [E [Same Le]]]]|[body [h0 [E [Same Le]]]]]; rewrite E.
  - split; [|split; cbn; lia].
    exists [], []. rewrite Same. auto.
  - destruct (_makeRequest (endpoint_for m) body w h0) as [[r h'] out] eqn:R.
    destruct (makeRequest_summary w h0 h' _ body r out R)
      as [_ [_ [[gets [posts [-> [Gets Posts]]]] _]]].
    rewrite Same in Gets, Posts. split.
    + exists gets, posts. split; [reflexivity|]. split; [exact Gets|].
      destruct Posts as [->|P]; [now left | right; eauto].
    + eapply counts_of_trace; eauto.
Qed.


(** *** Inside the dispatcher *)

(** X7.  The dispatcher after its token step.  When the token step throws,
    the dispatcher throws the same value and calls no target endpoint.
    When it returns a token, exactly one target call follows, carrying the
    body as it was given; a 2xx answer is returned as it is, and whatever
    the answer (even a rejection) the client keeps the token the token
    step left in the cache. *)
Theorem dispatcher_after_token_step (w : world) (h h1 : heap)
    (endpoint : string) (body : value) (out : list event) :
  (forall e,
     run _getAuthToken w h = (Abrupt e, h1, out) ->
     run (_makeRequest endpoint body) w h = (Abrupt e, h1, out)
     /\ target_endpoint_calls out = 0%nat)
  /\ (forall tok,
        run _getAuthToken w h = (Normal tok, h1, out) ->
        let url := {| base := baseUrl (self h); path := endpoint |} in
        let auth := "Bearer " ++ tok in
        exists r h',
          run (_makeRequest endpoint body) w h
          = (r, h', (out ++ [POST url body auth])%list)
          /\ self h' = self h1
          /\ token (self h') = Some tok
          /\ target_endpoint_calls (out ++ [POST url body auth]) = 1%nat
          /\ (forall payload,
                post_reply w (steps h1) url body auth = Resolved payload ->
                r = Normal payload)
          /\ (forall error,
                post_reply w (steps h1) url body auth = Rejected error ->
                r = Abrupt (propagated error))).
Proof.
  split.
  - intros e T. rewrite makeRequest_unfold, T. split; [reflexivity|].
    destruct (getAuthToken_summary w h h1 _ out T) as [_ [_ [[->| ->] _]]];
      reflexivity.
  - intros tok T url auth. rewrite makeRequest_unfold, T. cbv zeta.
    destruct (getAuthToken_summary w h h1 _ out T)
      as [Same [_ [Gets [Tok _]]]].
    destruct Same as [_ [_ [_ [_ [_ [_ [_ B]]]]]]]. rewrite B.
    fold url. fold auth. do 2 eexists. split; [reflexivity|].
    cbn [self step]. split; [reflexivity|].
    split; [exact (proj1 (Tok tok eq_refl))|].
    split.
    + rewrite target_calls_app. destruct Gets as [->| ->]; reflexivity.
    + split; intros x E; rewrite E; reflexivity.
Qed.

(** The mocked target endpoint rejects with a 400: the token fetched on
    the way stays in the cache. *)
Lemma dispatcher_after_token_step_witness :
  exists h',
    run (_makeRequest "/mpesa/c2b/v1/simulate" Mock.success)
      (Mock.target_endpoint_rejects
         (answered 400 (JObj [("errorMessage", JStr "Invalid request")])))
      Mock.fresh
    = (Abrupt (Error "The API request failed with status code 400. The API returned the following message: Invalid request"),
       h',
       [GET (token_url Mock.safaricom) (basic_authorization Mock.safaricom);
        POST {| base := baseUrl Mock.safaricom;
                path := "/mpesa/c2b/v1/simulate" |}
          Mock.success "Bearer api_token"])
    /\ token (self h') = Some "api_token".
Proof.
  destruct (proj2 (dispatcher_after_token_step
                     (Mock.target_endpoint_rejects
                        (answered 400
                           (JObj [("errorMessage", JStr "Invalid request")])))
                     Mock.fresh _ "/mpesa/c2b/v1/simulate" Mock.success _)
              "api_token" eq_refl)
    as [r [h' [Run [_ [Tk [_ [_ Rej]]]]]]].
  exists h'. rewrite (Rej _ eq_refl) in Run. split; [exact Run | exact Tk].
Defined.

(** *** The arguments of the methods *)

Lemma bind_param_nullish {A} (params : value) (name : string)
    (k : value -> M A) (w : world) (h : heap) :
  nullish params ->
  run (x <- param params name ;; k x) w h
  = (Abrupt (TypeError_nullish_read name), h, []).
Proof. intros [->| ->]; reflexivity. Qed.

Lemma bind_param_or_nullish {A} (params : value) (name fallback : string)
    (k : value -> M A) (w : world) (h : heap) :
  nullish params ->
  run (x <- param_or params name fallback ;; k x) w h
  = (Abrupt (TypeError_nullish_read name), h, []).
Proof. intros [->| ->]; reflexivity. Qed.

Lemma ready_guard (op : operation) (c : client) :
  ready (Guarded op) c = true -> missing_credential op c = false.
Proof. cbn [ready]. now destruct (missing_credential op c). Qed.

Ltac enter_method Ready :=
  try rewrite bind_read_this;
  try (rewrite Ready; cbv zeta);
  cbv zeta;
  try rewrite bind_getTimestamp.

Ltac open_method m Ready :=
  destruct m as [op|op];
  [ apply ready_guard in Ready; unfold missing_credential in Ready;
    destruct op; cbn [requires_passkey] in Ready
  | destruct op ];
  cbn [perform invoke invoke_open endpoint_for endpoint_of endpoint_of_open
       first_param shortcode_fields defaulted_fields];
  match goal with
  | |- context [run (?f ?params) _ _] => unfold f
  end;
  enter_method Ready.

(** X8.  A method that builds its body from the fields of [params] and is
    called without argument (or with [null]) throws the [TypeError] of its
    first read of [params], after its credential check and before any
    call; a method that passes its argument on does not look at it, and
    posts it as it is. *)
Theorem method_without_argument (m : method) (params : value) (w : world)
    (h : heap) :
  nullish params ->
  ready m (self h) = true ->
  match first_param m with
  | Some name =>
      exists h0,
        run (perform m params) w h
        = (Abrupt (TypeError_nullish_read name), h0, [])
        /\ self h0 = self h
  | None =>
      run (perform m params) w h
      = run (_makeRequest (endpoint_for m) params) w h
  end.
Proof.
  intros N Ready. open_method m Ready;
    first [ reflexivity
          | rewrite bind_param_or_nullish by exact N;
            eexists; split; reflexivity
          | rewrite bind_param_nullish by exact N;
            eexists; split; reflexivity ].
Qed.

(** [safaricom.b2c()] on the client of the test suite, and an invoice
    posted without a body. *)
Lemma method_without_argument_witness :
  (exists h0,
     run (b2c JUndefined) Mock.mocked Mock.fresh
     = (Abrupt (TypeError_nullish_read "CommandID"), h0, [])
     /\ self h0 = Mock.safaricom)
  /\ run (billManagerSingleInvoice JUndefined) Mock.mocked Mock.fresh
     = run (_makeRequest "/v1/billmanager-invoice/single-invoicing" JUndefined)
         Mock.mocked Mock.fresh.
Proof.
  assert (nullish JUndefined) as N by (left; reflexivity).
  split.
  - exact (method_without_argument (Guarded op_b2c) JUndefined Mock.mocked
             Mock.fresh N eq_refl).
  - exact (method_without_argument (Open op_billManagerSingleInvoice)
             JUndefined Mock.mocked Mock.fresh N eq_refl).
Defined.

Ltac read_fields D :=
  repeat first [ rewrite (bind_param_or _ _ _ _ _ _ D)
               | rewrite (bind_param _ _ _ _ _ D) ].

Ltac each_listed I :=
  cbn [In] in I;
  repeat (destruct I as [I|I];
          [ first [ injection I as <- <- <- | subst ]; reflexivity | ]);
  contradiction.

(** X9.  The body a method builds.  Once its credential check has passed,
    a method called with an object hands exactly one body to the
    dispatcher for its endpoint, on the same client; in that body the
    fields that name the organisation carry the shortcode of the client,
    whatever [params] holds under these names, and each field with a
    default carries the field of [params] when that is truthy and the
    default otherwise (so [0], the empty string, [false] and [null] are
    replaced as well). *)
Theorem method_body_fields (m : method) (params : value) (w : world)
    (h : heap) :
  ready m (self h) = true ->
  ~ nullish params ->
  first_param m <> None ->
  exists fields h0,
    run (perform m params) w h
    = run (_makeRequest (endpoint_for m) (JObj fields)) w h0
    /\ self h0 = self h
    /\ (forall f,
          In f (shortcode_fields m) ->
          lookup f fields = Some (JStr (shortCode (self h))))
    /\ (forall f p d,
          In (f, p, d) (defaulted_fields m) ->
          lookup f fields
          = Some (if truthy (field params p) then field params p
                  else JStr d)).
Proof.
  intros Ready D Builds.
  open_method m Ready;
    try (exfalso; apply Builds; reflexivity);
    read_fields D;
    do 2 eexists;
    (split; [reflexivity|]); (split; [reflexivity|]);
    (split; [intros f I | intros f p d I]); each_listed I.
Qed.

(** A reversal whose [params] try to set the receiver and give an empty
    remark: the receiver is the shortcode of the client, the remark the
    default. *)
Lemma method_body_fields_witness :
  exists fields h0,
    run (reversal
           (JObj [ ("TransactionID", JStr "OEI2AK4Q16"); ("Amount", JNum 1);
                   ("ReceiverParty", JStr "000000"); ("Remarks", JStr "") ]))
      Mock.mocked Mock.fresh
    = run (_makeRequest "/mpesa/reversal/v1/request" (JObj fields))
        Mock.mocked h0
    /\ lookup "ReceiverParty" fields = Some (JStr "600988")
    /\ lookup "Remarks" fields = Some (JStr "Reversal").
Proof.
  destruct (method_body_fields (Guarded op_reversal)
              (JObj [ ("TransactionID", JStr "OEI2AK4Q16"); ("Amount", JNum 1);
                      ("ReceiverParty", JStr "000000"); ("Remarks", JStr "") ])
              Mock.mocked Mock.fresh)
    as [fields [h0 [Run [_ [Code Default]]]]];
    [ reflexivity | intros [E|E]; discriminate E | discriminate | ].
  exists fields, h0. split; [exact Run|]. split.
  - exact (Code "ReceiverParty" (or_introl eq_refl)).
  - exact (Default "Remarks" "Remarks" "Reversal"
             (or_intror (or_introl eq_refl))).
Defined.

End Methods.

(** ** Sequences of calls *)

Module Sessions.
Import JS Safaricom Observed Vocabulary JSFacts NormalizerFacts PipelineFacts.
Local Open Scope js_scope.

Lemma posts_counts (host : slot) (tok : string)
    (calls : list (string * value)) :
  token_endpoint_calls (authorized_posts host tok calls) = 0%nat
  /\ target_endpoint_calls (authorized_posts host tok calls) = length calls.
Proof.
  unfold token_endpoint_calls, target_endpoint_calls, authorized_posts.
  induction calls as [|call rest [G P]]; [split; reflexivity|].
  cbn [map filter is_GET is_POST negb length].
  split; [exact G | f_equal; exact P].
Qed.

Lemma valid_token_dispatch (w : world) (h : heap) (endpoint : string)
    (body : value) (tok : string) :
  cached_token_valid (self h) (clock w (steps h)) ->
  token (self h) = Some tok ->
  exists r,
    run (_makeRequest endpoint body) w h
    = (r, step (step h),
       [POST {| base := baseUrl (self h); path := endpoint |} body
          ("Bearer " ++ tok)]).
Proof.
  intros V Tk.
  rewrite makeRequest_unfold, (getAuthToken_cached w h tok V Tk). cbv zeta.
  eexists. reflexivity.
Qed.

(** A session on a cache that stays valid: nothing but the target
    calls. *)
Lemma session_on_valid (w : world) (tok : string) (expiry : Z)
    (calls : list (string * value)) :
  forall h,
    token (self h) = Some tok -> tok <> "" ->
    tokenExpiresAt (self h) = Some expiry -> expiry <> 0 ->
    (forall n,
       (steps h <= n < steps h + 2 * length calls)%nat ->
       clock w n < expiry) ->
    exists h',
      session calls w h
      = (h', authorized_posts (baseUrl (self h)) tok calls)
      /\ self h' = self h.
Proof.
  induction calls as [|[endpoint body] rest IH];
    intros h Tk Nt Ex Ne Early.
  - exists h. split; reflexivity.
  - assert (cached_token_valid (self h) (clock w (steps h))) as V.
    { exists tok, expiry.
      split; [exact Tk|]. split; [exact Nt|]. split; [exact Ex|].
      split; [exact Ne|]. apply Early. cbn [length]. lia. }
    destruct (valid_token_dispatch w h endpoint body tok V Tk) as [r Run].
    destruct (IH (step (step h)) Tk Nt Ex Ne) as [h' [Rest Same]].
    { intros n B. apply Early. cbn [length]. cbn [step steps] in B. lia. }
    exists h'. cbn [session]. rewrite Run, Rest. split; [reflexivity|].
    exact Same.
Qed.

(** X10.  A caller that makes one dispatcher call after the other.  On a
    cache whose token is valid at every clock reading of the session the
    calls emitted are the target calls alone, in order, each authorized by
    the cached token.  On a cache that is not valid at the first call,
    when the fetch succeeds and the token it brings is valid at every
    later reading, the session starts with the one call of the token
    endpoint and goes on with the target calls, all authorized by the new
    token. *)
Theorem session_fetches_at_most_once (w : world) (h : heap)
    (calls : list (string * value)) :
  (forall tok expiry,
     token (self h) = Some tok -> tok <> "" ->
     tokenExpiresAt (self h) = Some expiry -> expiry <> 0 ->
     (forall n,
        (steps h <= n < steps h + 2 * length calls)%nat ->
        clock w n < expiry) ->
     exists h' out,
       session calls w h = (h', out)
       /\ out = authorized_posts (baseUrl (self h)) tok calls
       /\ token_endpoint_calls out = 0%nat
       /\ target_endpoint_calls out = length calls
       /\ self h' = self h)
  /\ (forall payload first rest,
        calls = first :: rest ->
        ~ cached_token_valid (self h) (clock w (steps h)) ->
        get_reply w (fetch_step h) (token_url (self h))
          (basic_authorization (self h)) = Resolved payload ->
        access_token payload <> "" ->
        let expiry :=
          clock w (S (fetch_step h)) + (expires_in payload - 60) * 1000 in
        let resumed := S (S (S (fetch_step h))) in
        expiry <> 0 ->
        (forall n,
           (resumed <= n < resumed + 2 * length rest)%nat ->
           clock w n < expiry) ->
        exists h' out,
          session calls w h = (h', out)
          /\ out
             = GET (token_url (self h)) (basic_authorization (self h))
               :: authorized_posts (baseUrl (self h)) (access_token payload)
                    calls
          /\ token_endpoint_calls out = 1%nat
          /\ target_endpoint_calls out = length calls
          /\ token (self h') = Some (access_token payload)
          /\ tokenExpiresAt (self h') = Some expiry).
Proof.
  split.
  - intros tok expiry Tk Nt Ex Ne Early.
    destruct (session_on_valid w tok expiry calls h Tk Nt Ex Ne Early)
      as [h' [Run Same]].
    destruct (posts_counts (baseUrl (self h)) tok calls) as [G P].
    exists h'. eexists. split; [exact Run|]. split; [reflexivity|].
    split; [exact G|]. split; [exact P | exact Same].
  - intros payload [endpoint body] rest -> Stale Reply Nt expiry resumed
      Ne Early.
    destruct (TokenCache.makeRequest_after_fetch w h endpoint body payload
                Stale Reply) as [r Run].
    destruct (session_on_valid w (access_token payload) expiry rest
                (step (refreshed w h payload)) eq_refl Nt eq_refl Ne Early)
      as [h' [Rest Same]].
    destruct (posts_counts (baseUrl (self h)) (access_token payload) rest)
      as [G P].
    exists h'. eexists. cbn [session]. rewrite Run, Rest.
    split; [reflexivity|]. split; [reflexivity|].
    unfold token_endpoint_calls, target_endpoint_calls in *.
    cbn [app filter is_GET is_POST negb length authorized_posts map fst snd
         self step refreshed baseUrl set_token set_tokenExpiresAt] in *.
    split; [now rewrite G|]. split; [now rewrite P|].
    rewrite Same. split; reflexivity.
Qed.

(** The client of the test suite, cold, making three calls: one call of
    the token endpoint, then the three target calls. *)
Lemma session_fetches_at_most_once_witness :
  exists h',
    session [ ("/mpesa/c2b/v1/registerurl", Mock.success);
              ("/mpesa/c2b/v1/simulate", Mock.success);
              ("/mpesa/c2b/v1/simulate", Mock.success) ]
      Mock.mocked Mock.fresh
    = (h',
       [ GET (token_url Mock.safaricom) (basic_authorization Mock.safaricom);
         POST {| base := baseUrl Mock.safaricom;
                 path := "/mpesa/c2b/v1/registerurl" |}
           Mock.success "Bearer api_token";
         POST {| base := baseUrl Mock.safaricom;
                 path := "/mpesa/c2b/v1/simulate" |}
           Mock.success "Bearer api_token";
         POST {| base := baseUrl Mock.safaricom;
                 path := "/mpesa/c2b/v1/simulate" |}
           Mock.success "Bearer api_token" ]).
Proof.
  destruct (proj2 (session_fetches_at_most_once Mock.mocked Mock.fresh
                     [ ("/mpesa/c2b/v1/registerurl", Mock.success);
                       ("/mpesa/c2b/v1/simulate", Mock.success);
                       ("/mpesa/c2b/v1/simulate", Mock.success) ])
              Mock.mockTokenResponse _ _ eq_refl)
    as [h' [out [Run [Out _]]]].
  - intros [t [e [E _]]]. discriminate E.
  - reflexivity.
  - discriminate.
  - discriminate.
  - intros n B. cbn in B. cbn [Mock.mocked clock]. unfold fetch_step.
    cbn [Mock.fresh self Mock.safaricom consults_clock token truthy_field
         andb Mock.mockTokenResponse expires_in steps].
    lia.
  - exists h'. rewrite Run, Out. reflexivity.
Defined.

(** X11.  The one-minute margin.  A token that the token endpoint grants
    for sixty seconds or less, or an empty token, is stored and returned
    but never reused: on a clock that does not run backwards, every later
    [_getAuthToken] on that cache calls the token endpoint again. *)
Theorem short_lived_token_is_refetched (w : world) (h h2 : heap)
    (payload : token_data) :
  ~ cached_token_valid (self h) (clock w (steps h)) ->
  get_reply w (fetch_step h) (token_url (self h))
    (basic_authorization (self h)) = Resolved payload ->
  expires_in payload <= 60 \/ access_token payload = "" ->
  self h2 = self (refreshed w h payload) ->
  clock w (S (fetch_step h)) <= clock w (steps h2) ->
  run _getAuthToken w h
  = (Normal (access_token payload), refreshed w h payload,
     [GET (token_url (self h)) (basic_authorization (self h))])
  /\ exists r h3,
       run _getAuthToken w h2
       = (r, h3, [GET (token_url (self h)) (basic_authorization (self h))]).
Proof.
  intros Stale Reply Short Same Later.
  split.
  - rewrite (getAuthToken_fetch w h Stale). cbv zeta. now rewrite Reply.
  - assert (~ cached_token_valid (self h2) (clock w (steps h2))) as Stale2.
    { rewrite Same. intros [t [e [Tk [Nt [Ex [_ Lt]]]]]].
      cbn [refreshed self token tokenExpiresAt set_token set_tokenExpiresAt]
        in Tk, Ex.
      injection Tk as <-. injection Ex as <-.
      destruct Short as [Short|Empty]; [nia | contradiction]. }
    rewrite (getAuthToken_fetch w h2 Stale2). cbv zeta.
    replace (token_url (self h2)) with (token_url (self h))
      by (rewrite Same; reflexivity).
    replace (basic_authorization (self h2))
      with (basic_authorization (self h))
      by (rewrite Same; reflexivity).
    destruct (get_reply w (fetch_step h2) _ _); do 2 eexists; reflexivity.
Qed.

(** A token endpoint that grants one minute: the second dispatcher call
    finds the token of the first already expired. *)
Lemma short_lived_token_is_refetched_witness :
  exists r h3,
    run _getAuthToken Mock.short_lived
      (step (refreshed Mock.short_lived Mock.fresh
               {| access_token := "api_token"; expires_in := 60 |}))
    = (r, h3,
       [GET (token_url Mock.safaricom) (basic_authorization Mock.safaricom)]).
Proof.
  refine (proj2 (short_lived_token_is_refetched Mock.short_lived Mock.fresh
                   (step (refreshed Mock.short_lived Mock.fresh
                            {| access_token := "api_token";
                               expires_in := 60 |}))
                   {| access_token := "api_token"; expires_in := 60 |}
                   _ eq_refl _ eq_refl _)).
  - intros [t [e [E _]]]. discriminate E.
  - left. cbn. lia.
  - vm_compute. discriminate.
Defined.

(** *** Scripts of method calls *)








End Sessions.

(** ** The timestamp *)

Module Timestamps.
Import JS Safaricom Observed Vocabulary PipelineFacts.

Lemma digit_is_digit (n : Z) : 0 <= n <= 9 -> is_digit (digit n) = true.
Proof.
  intro B.
  apply (all_from_sound (fun n => is_digit (digit n)) (Z.to_nat 10) 0);
    [vm_compute; reflexivity | rewrite Z2Nat.id; lia].
Qed.

Lemma digit_injective (a b : Z) :
  0 <= a <= 9 -> 0 <= b <= 9 -> digit a = digit b -> a = b.
Proof.
  intros A B E. unfold digit in E.
  apply (f_equal N_of_ascii) in E.
  rewrite !N_ascii_embedding in E by lia. lia.
Qed.

Lemma two_digits_injective (a b : Z) :
  0 <= a <= 99 -> 0 <= b <= 99 -> two_digits a = two_digits b -> a = b.
Proof.
  intros A B E. unfold two_digits in E. injection E as Tens Units.
  apply digit_injective in Tens;
    [|Z.to_euclidean_division_equations; lia ..].
  apply digit_injective in Units;
    [|Z.to_euclidean_division_equations; lia ..].
  Z.to_euclidean_division_equations. lia.
Qed.

Lemma four_digits_injective (a b : Z) :
  1000 <= a <= 9999 -> 1000 <= b <= 9999 ->
  four_digits a = four_digits b -> a = b.
Proof.
  intros A B E. unfold four_digits in E.
  injection E as Thousands Hundreds Tens Units.
  apply digit_injective in Thousands;
    [|Z.to_euclidean_division_equations; lia ..].
  apply digit_injective in Hundreds;
    [|Z.to_euclidean_division_equations; lia ..].
  apply digit_injective in Tens;
    [|Z.to_euclidean_division_equations; lia ..].
  apply digit_injective in Units;
    [|Z.to_euclidean_division_equations; lia ..].
  Z.to_euclidean_division_equations. lia.
Qed.

Lemma all_digits_app (a b : string) :
  all_digits (a ++ b) = all_digits a && all_digits b.
Proof.
  induction a as [|c a IH]; [reflexivity|].
  cbn [String.append all_digits]. now rewrite IH, andb_assoc.
Qed.

Lemma two_digits_all_digits (n : Z) :
  0 <= n <= 99 -> all_digits (two_digits n) = true.
Proof.
  intro B. unfold two_digits. cbn [all_digits].
  now rewrite !digit_is_digit by (Z.to_euclidean_division_equations; lia).
Qed.

Lemma four_digits_all_digits (n : Z) :
  1000 <= n <= 9999 -> all_digits (four_digits n) = true.
Proof.
  intro B. unfold four_digits. cbn [all_digits].
  now rewrite !digit_is_digit by (Z.to_euclidean_division_equations; lia).
Qed.

(** X13.  The timestamp of a date with a four-digit year is made of
    fourteen decimal digits, and two such dates with the same timestamp
    agree on year, month, day, hour, minute and second. *)
Theorem timestamp_fourteen_digits (date other : calendar) :
  four_digit_year_date date ->
  String.length (timestamp_of date) = 14%nat
  /\ all_digits (timestamp_of date) = true
  /\ (four_digit_year_date other ->
      timestamp_of date = timestamp_of other -> same_calendar date other).
Proof.
  intro Valid. pose proof Valid as [Y [Mo [D [H [Mi S]]]]].
  rewrite (timestamp_format date Valid).
  split; [reflexivity|]. split.
  - unfold YYYYMMDDHHMMSS. rewrite !all_digits_app.
    rewrite four_digits_all_digits by lia.
    now rewrite !two_digits_all_digits by lia.
  - intros Valid' E. rewrite (timestamp_format other Valid') in E.
    destruct Valid' as [Y' [Mo' [D' [H' [Mi' S']]]]].
    unfold YYYYMMDDHHMMSS in E.
    assert (forall a b x y,
              four_digits a ++ x = four_digits b ++ y ->
              four_digits a = four_digits b /\ x = y) as Cut4.
    { intros a b x y Q. unfold four_digits in *. cbn [String.append] in Q.
      injection Q as -> -> -> -> ->. split; reflexivity. }
    assert (forall a b x y,
              two_digits a ++ x = two_digits b ++ y ->
              two_digits a = two_digits b /\ x = y) as Cut2.
    { intros a b x y Q. unfold two_digits in *. cbn [String.append] in Q.
      injection Q as -> -> ->. split; reflexivity. }
    apply Cut4 in E. destruct E as [Ey E].
    apply Cut2 in E. destruct E as [Emo E].
    apply Cut2 in E. destruct E as [Ed E].
    apply Cut2 in E. destruct E as [Eh E].
    apply Cut2 in E. destruct E as [Emi Es].
    apply four_digits_injective in Ey; [|lia ..].
    apply two_digits_injective in Emo; [|lia ..].
    apply two_digits_injective in Ed; [|lia ..].
    apply two_digits_injective in Eh; [|lia ..].
    apply two_digits_injective in Emi; [|lia ..].
    apply two_digits_injective in Es; [|lia ..].
    unfold same_calendar. repeat split; lia.
Qed.

(** The fixed date of the test suite. *)
Lemma timestamp_fourteen_digits_witness :
  timestamp_of Mock.new_year = "20230101000000"
  /\ String.length (timestamp_of Mock.new_year) = 14%nat
  /\ all_digits (timestamp_of Mock.new_year) = true.
Proof.
  assert (four_digit_year_date Mock.new_year) as Valid
    by (unfold four_digit_year_date; cbn; lia).
  destruct (timestamp_fourteen_digits Mock.new_year Mock.new_year Valid)
    as [Length [Digits _]].
  split; [reflexivity|]. split; [exact Length | exact Digits].
Defined.

End Timestamps.
